(** * The session transaction-state cache of src/mongo/db/session.cpp

    A shallow embedding of [mongo::Session]: the cache fields guarded by
    [_mutex], the operations that run while the mutex is held, and the
    operations that release it around storage I/O.  Code that holds the
    mutex is a computation in a state-and-failure monad over the cache;
    code that also touches the storage layer runs over a [World] that
    adds the persisted table, the recovery unit and the lock state of the
    operation. *)

From Stdlib Require Import ZArith NArith List Bool Lia.
Import ListNotations.
Open Scope Z_scope.

(** ** Plain data *)

(** [TxnNumber] is a 64-bit integer that this file only compares and
    copies; [StmtId] likewise.  [Timestamp] is compared as one unsigned
    64-bit value and [Timestamp()] is the null, smallest one. *)
Definition TxnNumber := Z.
Definition StmtId := Z.
Definition Timestamp := N.
Definition LogicalSessionId := N.

Definition Timestamp_null : Timestamp := 0%N.

(** [_numInvalidations] is an [int]; [wrap_int] is the value an
    increment leaves in a 32-bit two's complement register. *)
Definition int_modulus : Z := 2 ^ 32.
Definition int_half : Z := 2 ^ 31.
Definition wrap_int (z : Z) : Z := (z + int_half) mod int_modulus - int_half.
Definition int_range (z : Z) : Prop := - int_half <= z < int_half.

Module SessionTxnRecord.

Record t := make {
  getSessionId : LogicalSessionId;
  getTxnNum : TxnNumber;
  getLastWriteOpTimeTs : Timestamp
}.

Definition setTxnNum (n : TxnNumber) (r : t) : t :=
  make (getSessionId r) n (getLastWriteOpTimeTs r).

Definition setLastWriteOpTimeTs (ts : Timestamp) (r : t) : t :=
  make (getSessionId r) (getTxnNum r) ts.

End SessionTxnRecord.

Module OplogEntry.

Record t := make {
  getTimestamp : Timestamp;
  getStatementId : option StmtId;
  getObject : N
}.

End OplogEntry.

Inductive ErrorCode :=
| ConflictingOperationInProgress
| TransactionTooOld
| WriteConflict
| Location40527
| ErrorCodes_fromInt (n : Z).

(** ** Outcomes and the monad

    [uassert] and [throw] unwind to the caller ([Thrown]); a failed
    [invariant] terminates the process ([Aborted]).  The state reached
    when the failure happened is kept in both cases. *)
Inductive Outcome (A : Type) :=
| Returned (a : A)
| Thrown (code : ErrorCode)
| Aborted.
Arguments Returned {A} a.
Arguments Thrown {A} code.
Arguments Aborted {A}.

Definition M (S A : Type) : Type := S -> S * Outcome A.

Definition ret {S A} (a : A) : M S A := fun s => (s, Returned a).

Definition bind {S A B} (m : M S A) (k : A -> M S B) : M S B :=
  fun s =>
    match m s with
    | (s', Returned a) => k a s'
    | (s', Thrown c) => (s', Thrown c)
    | (s', Aborted) => (s', Aborted)
    end.

Declare Scope session_scope.
Delimit Scope session_scope with session.
Notation "x <- m ;; k" := (bind m (fun x => k))
  (at level 61, m at next level, right associativity) : session_scope.
Notation "m ;; k" := (bind m (fun _ => k))
  (at level 61, right associativity) : session_scope.
Open Scope session_scope.

Definition gets {S A} (f : S -> A) : M S A := fun s => (s, Returned (f s)).
Definition modify {S} (f : S -> S) : M S unit := fun s => (f s, Returned tt).
Definition uassert {S} (code : ErrorCode) (cond : bool) : M S unit :=
  fun s => (s, if cond then Returned tt else Thrown code).
Definition invariant {S} (cond : bool) : M S unit :=
  fun s => (s, if cond then Returned tt else Aborted).
Definition throw {S A} (code : ErrorCode) : M S A := fun s => (s, Thrown code).

Definition isSome {A} (o : option A) : bool :=
  match o with Some _ => true | None => false end.


(** ** Documents and requests exchanged with the persisted table

    The documents this file builds have one of three shapes: the
    session-id filter, a whole record ([SessionTxnRecord::toBSON]) and the
    [$set] of a record's transaction number and write position.  Every
    request is directed at [kSessionTransactionsTableNamespace]. *)
Inductive BSONObj :=
| BSON_sessionId (lsid : LogicalSessionId)
| BSON_record (r : SessionTxnRecord.t)
| BSON_set (txnNum : TxnNumber) (lastWriteOpTimeTs : Timestamp).

Record UpdateRequest := mkUpdateRequest {
  isUpsert : bool;
  getQuery : BSONObj;
  getUpdates : BSONObj
}.

Record UpdateResult := mkUpdateResult {
  numDocsModified : Z;
  upserted : option LogicalSessionId
}.

Inductive ReadConcernLevel :=
| kLocalReadConcern
| kMajorityReadConcern
| kLinearizableReadConcern.

Definition ReadConcernLevel_eqb (a b : ReadConcernLevel) : bool :=
  match a, b with
  | kLocalReadConcern, kLocalReadConcern => true
  | kMajorityReadConcern, kMajorityReadConcern => true
  | kLinearizableReadConcern, kLinearizableReadConcern => true
  | _, _ => false
  end.

(** The closure handed to [RecoveryUnit::onCommit]: its captured values. *)
Record Change := mkChange {
  change_newTxnNumber : TxnNumber;
  change_stmtIdsWritten : list StmtId;
  change_newLastWriteTs : Timestamp
}.

(** ** External collaborators *)

(** Modelled from the spec: the interfaces session.cpp consumes and whose
    code is not under src/ (section 6).  The record store offers a point
    lookup by session id, [findOne], that returns a document or the empty
    result ([None]), and an upsert that reports the number of modified
    documents and the upserted id; both can throw.
    [SessionTxnRecord_parse] turns a document into a record or throws.
    [getCollection db] tells whether [AutoGetCollection] finds the table.
    [oplogChain db ts] is the backward sequence of log entries that the
    [TransactionHistoryIterator] started at [ts] yields, newest first, up
    to the beginning of the chain.  [kUninitializedTxnNumber] is the
    sentinel of logical_session_id.h.  A [BSONElement] is a field of the
    fail point's arguments: [BSONElement_eoo] tells that the field is
    absent, [BSONElement_Bool] is its [Bool()], which throws on a field of
    another type, and [BSONElement_NumberAsInt] is [int(e.Number())], the
    conversion of its numeric value (held as a double) to [int]. *)
Class Collaborators := {
  kUninitializedTxnNumber : TxnNumber;
  Storage : Type;
  Document : Type;
  getCollection : Storage -> bool;
  findOne : Storage -> LogicalSessionId -> Outcome (option Document);
  SessionTxnRecord_parse : Document -> Outcome SessionTxnRecord.t;
  update : Storage -> UpdateRequest -> Storage * Outcome UpdateResult;
  oplogChain : Storage -> Timestamp -> list OplogEntry.t;
  BSONElement : Type;
  BSONElement_eoo : BSONElement -> bool;
  BSONElement_Bool : BSONElement -> Outcome bool;
  BSONElement_NumberAsInt : BSONElement -> Outcome Z
}.

(** ** The cache *)

Record Session := mkSession {
  _sessionId : LogicalSessionId;
  _isValid : bool;
  _numInvalidations : Z;
  _lastWrittenSessionRecord : option SessionTxnRecord.t;
  _activeTxnNumber : TxnNumber
}.

Definition set_isValid (b : bool) (s : Session) : Session :=
  mkSession (_sessionId s) b (_numInvalidations s)
            (_lastWrittenSessionRecord s) (_activeTxnNumber s).

Definition set_numInvalidations (k : Z) (s : Session) : Session :=
  mkSession (_sessionId s) (_isValid s) k
            (_lastWrittenSessionRecord s) (_activeTxnNumber s).

Definition set_lastWrittenSessionRecord (r : option SessionTxnRecord.t)
    (s : Session) : Session :=
  mkSession (_sessionId s) (_isValid s) (_numInvalidations s)
            r (_activeTxnNumber s).

Definition set_activeTxnNumber (n : TxnNumber) (s : Session) : Session :=
  mkSession (_sessionId s) (_isValid s) (_numInvalidations s)
            (_lastWrittenSessionRecord s) n.

(** *** Code that runs with the mutex held *)

Definition _checkValid : M Session unit :=
  valid <- gets _isValid ;;
  uassert ConflictingOperationInProgress valid.

Definition _checkIsActiveTransaction (txnNumber : TxnNumber) : M Session unit :=
  active <- gets _activeTxnNumber ;;
  uassert ConflictingOperationInProgress (txnNumber =? active).

Definition _beginTxn (txnNumber : TxnNumber) : M Session unit :=
  _checkValid ;;
  active <- gets _activeTxnNumber ;;
  uassert TransactionTooOld (txnNumber >=? active) ;;
  if txnNumber =? active then ret tt
  else modify (set_activeTxnNumber txnNumber).

Definition getLastWriteOpTimeTs (txnNumber : TxnNumber) : M Session Timestamp :=
  _checkValid ;;
  _checkIsActiveTransaction txnNumber ;;
  rec <- gets _lastWrittenSessionRecord ;;
  match rec with
  | None => ret Timestamp_null
  | Some r =>
      if negb (SessionTxnRecord.getTxnNum r =? txnNumber)
      then ret Timestamp_null
      else ret (SessionTxnRecord.getLastWriteOpTimeTs r)
  end.

Definition _makeUpdateRequest (newTxnNumber : TxnNumber)
    (newLastWriteTs : Timestamp) : M Session UpdateRequest :=
  rec <- gets _lastWrittenSessionRecord ;;
  match rec with
  | Some r =>
      ret (mkUpdateRequest true (BSON_record r)
                           (BSON_set newTxnNumber newLastWriteTs))
  | None =>
      sid <- gets _sessionId ;;
      let updateBSON :=
        BSON_record (SessionTxnRecord.make sid newTxnNumber newLastWriteTs) in
      ret (mkUpdateRequest true updateBSON updateBSON)
  end.

(** The body of the lambda registered by [_registerUpdateCacheOnCommit]. *)
Definition updateCacheOnCommit (newTxnNumber : TxnNumber)
    (stmtIdsWritten : list StmtId) (newLastWriteTs : Timestamp)
    : M Session unit :=
  valid <- gets _isValid ;;
  if negb valid then ret tt
  else
    active <- gets _activeTxnNumber ;;
    if newTxnNumber <? active then ret tt
    else
      _beginTxn newTxnNumber ;;
      rec <- gets _lastWrittenSessionRecord ;;
      match rec with
      | None =>
          sid <- gets _sessionId ;;
          modify (set_lastWrittenSessionRecord
                    (Some (SessionTxnRecord.make sid newTxnNumber newLastWriteTs)))
      | Some r =>
          let r1 :=
            if newTxnNumber >? SessionTxnRecord.getTxnNum r
            then SessionTxnRecord.setTxnNum newTxnNumber r else r in
          let r2 :=
            if (SessionTxnRecord.getLastWriteOpTimeTs r1 <? newLastWriteTs)%N
            then SessionTxnRecord.setLastWriteOpTimeTs newLastWriteTs r1 else r1 in
          modify (set_lastWrittenSessionRecord (Some r2))
      end.

Definition runChange (c : Change) : M Session unit :=
  updateCacheOnCommit (change_newTxnNumber c) (change_stmtIdsWritten c)
                      (change_newLastWriteTs c).

(** The locked tail of one iteration of the loop of
    [refreshFromStorageIfNeeded]; the result tells whether the loop
    breaks. *)
Definition refreshInstall (numInvalidations : Z)
    (lastWrittenTxnRecord : option SessionTxnRecord.t) : M Session bool :=
  valid <- gets _isValid ;;
  current <- gets _numInvalidations ;;
  if negb valid && (current =? numInvalidations) then
    modify (set_isValid true) ;;
    modify (set_lastWrittenSessionRecord lastWrittenTxnRecord) ;;
    rec <- gets _lastWrittenSessionRecord ;;
    match rec with
    | Some r => modify (set_activeTxnNumber (SessionTxnRecord.getTxnNum r))
    | None => ret tt
    end ;;
    ret true
  else ret false.

(** ** The operation's world: cache, storage and recovery unit *)

Section Operations.
Context `{Collaborators}.

(** Modelled from the spec: the member initialisers are in session.h,
    which is not under src/ (the constructor only stores the session id).
    A new cache is not valid and is populated by the first refresh; it
    has seen no invalidation and holds no record and no admitted
    transaction. *)
Definition Session_ctor (sessionId : LogicalSessionId) : Session :=
  mkSession sessionId false 0 None kUninitializedTxnNumber.

Definition invalidate : M Session unit :=
  modify (set_isValid false) ;;
  modify (fun s => set_numInvalidations (wrap_int (_numInvalidations s + 1)) s) ;;
  modify (set_lastWrittenSessionRecord None) ;;
  modify (set_activeTxnNumber kUninitializedTxnNumber).

(** Arguments of the [onPrimaryTransactionalWrite] fail point: the two
    fields the code reads from them. *)
Record FailPointData := mkFailPointData {
  closeConnection : BSONElement;
  failBeforeCommitExceptionCode : BSONElement
}.

(** [writeUnitOfWork] is [Some db0] while a write unit of work is open,
    [db0] being the table when it was opened; [changes] are the
    registered commit handlers, oldest first. *)
Record World := mkWorld {
  session : Session;
  storage : Storage;
  isLocked : bool;
  writeUnitOfWork : option Storage;
  readConcernLevel : ReadConcernLevel;
  changes : list Change;
  transportSessionEnded : bool;
  onPrimaryTransactionalWrite : option FailPointData
}.

Definition set_session (s : Session) (w : World) : World :=
  mkWorld s (storage w) (isLocked w) (writeUnitOfWork w) (readConcernLevel w)
          (changes w) (transportSessionEnded w) (onPrimaryTransactionalWrite w).

Definition set_storage (db : Storage) (w : World) : World :=
  mkWorld (session w) db (isLocked w) (writeUnitOfWork w) (readConcernLevel w)
          (changes w) (transportSessionEnded w) (onPrimaryTransactionalWrite w).

Definition set_isLocked (b : bool) (w : World) : World :=
  mkWorld (session w) (storage w) b (writeUnitOfWork w) (readConcernLevel w)
          (changes w) (transportSessionEnded w) (onPrimaryTransactionalWrite w).

Definition set_writeUnitOfWork (u : option Storage) (w : World) : World :=
  mkWorld (session w) (storage w) (isLocked w) u (readConcernLevel w)
          (changes w) (transportSessionEnded w) (onPrimaryTransactionalWrite w).

Definition set_changes (cs : list Change) (w : World) : World :=
  mkWorld (session w) (storage w) (isLocked w) (writeUnitOfWork w)
          (readConcernLevel w) cs (transportSessionEnded w)
          (onPrimaryTransactionalWrite w).

Definition set_transportSessionEnded (b : bool) (w : World) : World :=
  mkWorld (session w) (storage w) (isLocked w) (writeUnitOfWork w)
          (readConcernLevel w) (changes w) b (onPrimaryTransactionalWrite w).

(** Runs cache code with the mutex taken for its duration. *)
Definition withMutex {A} (m : M Session A) : M World A :=
  fun w => let (s', r) := m (session w) in (set_session s' w, r).

(** *** The write unit of work and its recovery unit *)

Definition runChanges (cs : list Change) (s : Session) : Session :=
  fold_left (fun acc c => fst (runChange c acc)) cs s.

Definition WriteUnitOfWork_begin : M World unit :=
  modify (fun w => set_writeUnitOfWork (Some (storage w)) w).

Definition WriteUnitOfWork_commit : M World unit :=
  modify (fun w =>
            set_changes []
              (set_writeUnitOfWork None
                 (set_session (runChanges (changes w) (session w)) w))).

Definition WriteUnitOfWork_abort : M World unit :=
  modify (fun w =>
            set_changes []
              (set_writeUnitOfWork None
                 (match writeUnitOfWork w with
                  | Some db0 => set_storage db0 w
                  | None => w
                  end))).

(** *** The storage-facing operations *)

Definition runUpdate (updateRequest : UpdateRequest) : M World UpdateResult :=
  fun w => let (db', r) := update (storage w) updateRequest in (set_storage db' w, r).

(** The intent lock that [AutoGetCollection] takes and the
    [UnreplicatedWritesBlock] of the callers touch neither the cache nor
    the rows and are left out. *)
Definition updateSessionEntry (updateRequest : UpdateRequest) : M World unit :=
  collection <- gets (fun w => getCollection (storage w)) ;;
  uassert Location40527 collection ;;
  updateResult <- runUpdate updateRequest ;;
  if (numDocsModified updateResult =? 0) && negb (isSome (upserted updateResult))
  then throw WriteConflict
  else ret tt.

Definition _registerUpdateCacheOnCommit (newTxnNumber : TxnNumber)
    (stmtIdsWritten : list StmtId) (newLastWriteTs : Timestamp) : M World unit :=
  modify (fun w =>
            set_changes
              (changes w ++ [mkChange newTxnNumber stmtIdsWritten newLastWriteTs]) w) ;;
  failPoint <- gets onPrimaryTransactionalWrite ;;
  match failPoint with
  | None => ret tt
  | Some data =>
      let closeConnectionElem := closeConnection data in
      (if BSONElement_eoo closeConnectionElem
       then modify (set_transportSessionEnded true)
       else
         close <- (fun w => (w, BSONElement_Bool closeConnectionElem)) ;;
         if close then modify (set_transportSessionEnded true) else ret tt) ;;
      let failBeforeCommitExceptionElem := failBeforeCommitExceptionCode data in
      if negb (BSONElement_eoo failBeforeCommitExceptionElem) then
        failureCode <-
          (fun w => (w, BSONElement_NumberAsInt failBeforeCommitExceptionElem)) ;;
        throw (ErrorCodes_fromInt failureCode)
      else ret tt
  end.

Definition beginTxn (txnNumber : TxnNumber) : M World unit :=
  locked <- gets isLocked ;;
  invariant (negb locked) ;;
  withMutex (_beginTxn txnNumber).

Definition onWriteOpCompletedOnPrimary (txnNumber : TxnNumber)
    (stmtIdsWritten : list StmtId) (newLastWriteTs : Timestamp) : M World unit :=
  unit_ <- gets writeUnitOfWork ;;
  invariant (isSome unit_) ;;
  updateRequest <- withMutex (_checkValid ;;
                              _checkIsActiveTransaction txnNumber ;;
                              _makeUpdateRequest txnNumber newLastWriteTs) ;;
  updateSessionEntry updateRequest ;;
  _registerUpdateCacheOnCommit txnNumber stmtIdsWritten newLastWriteTs.

(** [writeConflictRetry] runs its body again for as long as it throws
    [WriteConflict]; [attempts] bounds the repetitions the caller waits
    for. *)
Fixpoint writeConflictRetry {A} (attempts : nat) (f : M World A) : M World A :=
  fun w =>
    match f w with
    | (w', Thrown WriteConflict) =>
        match attempts with
        | O => (w', Thrown WriteConflict)
        | S k => writeConflictRetry k f w'
        end
    | r => r
    end.

(** The body handed to [writeConflictRetry]; leaving it by an exception
    rolls the unit of work back and releases the database lock. *)
Definition updateSessionRecordOnSecondary_attempt
    (sessionTxnRecord : SessionTxnRecord.t) : M World unit :=
  fun w =>
    let updateRequest :=
      mkUpdateRequest true
        (BSON_sessionId (SessionTxnRecord.getSessionId sessionTxnRecord))
        (BSON_record sessionTxnRecord) in
    let body :=
      modify (set_isLocked true) ;;
      WriteUnitOfWork_begin ;;
      updateSessionEntry updateRequest ;;
      WriteUnitOfWork_commit in
    match body w with
    | (w', Returned tt) => (set_isLocked false w', Returned tt)
    | (w', Thrown c) => (set_isLocked false (fst (WriteUnitOfWork_abort w')), Thrown c)
    | (w', Aborted) => (w', Aborted)
    end.

Definition updateSessionRecordOnSecondary (attempts : nat)
    (sessionTxnRecord : SessionTxnRecord.t) : M World unit :=
  locked <- gets isLocked ;;
  invariant (negb locked) ;;
  writeConflictRetry attempts (updateSessionRecordOnSecondary_attempt sessionTxnRecord).

(** *** Refresh

    The mutex is released around the lookup, so other threads act on the
    cache and the table in that window.  [Interference] lists what they
    can do; a [Window] gives what happens before and after the lookup of
    one iteration. *)
Inductive Interference :=
| OtherInvalidate
| OtherBeginTxn (txnNumber : TxnNumber)
| OtherCommit (c : Change)
| OtherRefresh (numInvalidations : Z) (row : option SessionTxnRecord.t)
| OtherWrite (db : Storage).

Definition interfere (w : World) (i : Interference) : World :=
  match i with
  | OtherInvalidate => fst (withMutex invalidate w)
  | OtherBeginTxn n => fst (withMutex (_beginTxn n) w)
  | OtherCommit c => fst (withMutex (runChange c) w)
  | OtherRefresh k row => fst (withMutex (refreshInstall k row) w)
  | OtherWrite db => set_storage db w
  end.

Record Window := mkWindow {
  beforeLookup : list Interference;
  afterLookup : list Interference
}.

Definition quiet : Window := mkWindow [] [].

(** The lambda that looks the session's row up: the empty result gives
    no record, another one is parsed; what [findOne] or the parser throws
    leaves the lambda. *)
Definition lookupTxnRecord (db : Storage) (sessionId : LogicalSessionId)
    : Outcome (option SessionTxnRecord.t) :=
  match findOne db sessionId with
  | Returned None => Returned None
  | Returned (Some result) =>
      match SessionTxnRecord_parse result with
      | Returned r => Returned (Some r)
      | Thrown c => Thrown c
      | Aborted => Aborted
      end
  | Thrown c => Thrown c
  | Aborted => Aborted
  end.

(** One pass through the loop body; entered with the mutex held and
    [_isValid] false.  An exception of the lookup leaves the function
    with the mutex released, in the state the lookup was made in. *)
Definition refreshIteration (win : Window) : M World bool :=
  fun w =>
    let numInvalidations := _numInvalidations (session w) in
    let w1 := fold_left interfere (beforeLookup win) w in
    match lookupTxnRecord (storage w1) (_sessionId (session w1)) with
    | Returned lastWrittenTxnRecord =>
        let w2 := fold_left interfere (afterLookup win) w1 in
        withMutex (refreshInstall numInvalidations lastWrittenTxnRecord) w2
    | Thrown c => (w1, Thrown c)
    | Aborted => (w1, Aborted)
    end.

(** The loop; [None] when the windows run out while it is still going. *)
Fixpoint refreshLoop (windows : list Window) (w : World)
    : option (World * Outcome unit) :=
  if _isValid (session w) then Some (w, Returned tt)
  else
    match windows with
    | [] => None
    | win :: rest =>
        match refreshIteration win w with
        | (w', Returned true) => Some (w', Returned tt)
        | (w', Returned false) => refreshLoop rest w'
        | (w', Thrown c) => Some (w', Thrown c)
        | (w', Aborted) => Some (w', Aborted)
        end
    end.

Definition refreshFromStorageIfNeeded (windows : list Window) (w : World)
    : option (World * Outcome unit) :=
  if isLocked w then Some (w, Aborted)
  else if negb (ReadConcernLevel_eqb (readConcernLevel w) kLocalReadConcern)
  then Some (w, Aborted)
  else refreshLoop windows w.

(** *** Statement lookup *)

(** The loop over the history iterator: [entries] is what the iterator
    still has to yield. *)
Fixpoint walkHistory (entries : list OplogEntry.t) (stmtId : StmtId)
    : Outcome (option OplogEntry.t) :=
  match entries with
  | [] => Returned None
  | entry :: rest =>
      match OplogEntry.getStatementId entry with
      | None => Aborted
      | Some id =>
          if id =? stmtId then Returned (Some entry)
          else walkHistory rest stmtId
      end
  end.

Definition checkStatementExecuted (txnNumber : TxnNumber) (stmtId : StmtId)
    : M World (option OplogEntry.t) :=
  start <- withMutex (_checkValid ;;
                      _checkIsActiveTransaction txnNumber ;;
                      rec <- gets _lastWrittenSessionRecord ;;
                      match rec with
                      | None => ret None
                      | Some r =>
                          if negb (SessionTxnRecord.getTxnNum r =? txnNumber)
                          then ret None
                          else ret (Some (SessionTxnRecord.getLastWriteOpTimeTs r))
                      end) ;;
  match start with
  | None => ret None
  | Some ts =>
      fun w => (w, walkHistory (oplogChain (storage w) ts) stmtId)
  end.

End Operations.

(** ** Reachable cache states and invariant I2 *)

Section Reachability.
Context `{Collaborators}.

(** One atomic (mutex-held) mutation of the cache. *)
Inductive cacheStep : Session -> Session -> Prop :=
| step_refresh k row s : cacheStep s (fst (refreshInstall k row s))
| step_beginTxn n s : cacheStep s (fst (_beginTxn n s))
| step_commit n stmts ts s : cacheStep s (fst (updateCacheOnCommit n stmts ts s))
| step_invalidate s : cacheStep s (fst (invalidate s)).

Inductive reachable (sessionId : LogicalSessionId) : Session -> Prop :=
| reachable_ctor : reachable sessionId (Session_ctor sessionId)
| reachable_step s s' :
    reachable sessionId s -> cacheStep s s' -> reachable sessionId s'.

End Reachability.

(** ** Vocabulary of the statements *)

Section Vocabulary.
Context `{Collaborators}.

Definition isInvalidate (i : Interference) : bool :=
  match i with OtherInvalidate => true | _ => false end.

Definition isRefresh (i : Interference) : bool :=
  match i with OtherRefresh _ _ => true | _ => false end.

Definition invalidations (l : list Interference) : nat :=
  length (filter isInvalidate l).

(** The world when the mutex is taken again at the end of a window. *)
Definition afterWindow (win : Window) (w : World) : World :=
  fold_left interfere (afterLookup win) (fold_left interfere (beforeLookup win) w).

(** The world [w] with the cache [s] in place of its own. *)
Definition worldWithCache (s : Session) (w : World) : World :=
  mkWorld s (storage w) (isLocked w) (writeUnitOfWork w) (readConcernLevel w)
          (changes w) (transportSessionEnded w) (onPrimaryTransactionalWrite w).

(** The world in which the lookup of an iteration is made, and what the
    lookup gives there. *)
Definition atLookup (win : Window) (w : World) : World :=
  fold_left interfere (beforeLookup win) w.

Definition lookedUp (win : Window) (w : World) : Outcome (option SessionTxnRecord.t) :=
  lookupTxnRecord (storage (atLookup win w)) (_sessionId (session (atLookup win w))).

End Vocabulary.

(** [m] leaves the part of the state that [proj] selects as it was. *)
Definition frames {S A T} (proj : S -> T) (m : M S A) : Prop :=
  forall s, proj (fst (m s)) = proj s.

(** The cache after a refresh has installed [row]. *)
Definition installed (row : option SessionTxnRecord.t) (s : Session) : Session :=
  mkSession (_sessionId s) true (_numInvalidations s) row
            (match row with
             | Some r => SessionTxnRecord.getTxnNum r
             | None => _activeTxnNumber s
             end).

Definition I2 (s : Session) : Prop :=
  match _lastWrittenSessionRecord s with
  | Some r => SessionTxnRecord.getTxnNum r <= _activeTxnNumber s
  | None => True
  end.

(** The write position the cache holds, null when it holds none. *)
Definition cachedWritePosition (s : Session) : Timestamp :=
  match _lastWrittenSessionRecord s with
  | Some r => SessionTxnRecord.getLastWriteOpTimeTs r
  | None => Timestamp_null
  end.

(** What the merge of the commit handler leaves in the record slot. *)
Definition mergedRecord (sid : LogicalSessionId) (n : TxnNumber) (ts : Timestamp)
    (rec : option SessionTxnRecord.t) : SessionTxnRecord.t :=
  match rec with
  | None => SessionTxnRecord.make sid n ts
  | Some r =>
      SessionTxnRecord.make (SessionTxnRecord.getSessionId r)
        (Z.max (SessionTxnRecord.getTxnNum r) n)
        (N.max (SessionTxnRecord.getLastWriteOpTimeTs r) ts)
  end.

Definition hasStatementId (e : OplogEntry.t) : Prop :=
  OplogEntry.getStatementId e <> None.

Definition isStatement (stmtId : StmtId) (e : OplogEntry.t) : bool :=
  match OplogEntry.getStatementId e with
  | Some id => id =? stmtId
  | None => false
  end.

(** The cache after the admissions [ns], in order; an admission that
    throws leaves the cache to the next one. *)
Definition admitAll (ns : list TxnNumber) (s : Session) : Session :=
  fold_left (fun acc n => fst (_beginTxn n acc)) ns s.

(** ** An in-memory stand-in for the collaborators *)

(** Modelled from the spec: a record store and a log that follow the
    interfaces of section 6, used to run the operations on concrete
    inputs.  The table is absent or a list of rows, and the log holds one
    chain, newest entry first.  A lookup in an absent table finds no row.
    An upsert changes the first row the filter matches; without a match
    it inserts, unless a row of that session exists already, in which
    case nothing is written. *)
Module InMemory.

Record Store := mkStore {
  table : option (list SessionTxnRecord.t);
  oplog : list OplogEntry.t
}.

Definition record_eqb (a b : SessionTxnRecord.t) : bool :=
  (SessionTxnRecord.getSessionId a =? SessionTxnRecord.getSessionId b)%N
  && (SessionTxnRecord.getTxnNum a =? SessionTxnRecord.getTxnNum b)
  && (SessionTxnRecord.getLastWriteOpTimeTs a =? SessionTxnRecord.getLastWriteOpTimeTs b)%N.

Definition matches (q : BSONObj) (row : SessionTxnRecord.t) : bool :=
  match q with
  | BSON_sessionId lsid => (SessionTxnRecord.getSessionId row =? lsid)%N
  | BSON_record r => record_eqb r row
  | BSON_set _ _ => false
  end.

Definition applyUpdates (u : BSONObj) (row : SessionTxnRecord.t) : SessionTxnRecord.t :=
  match u with
  | BSON_record r => r
  | BSON_set n ts => SessionTxnRecord.make (SessionTxnRecord.getSessionId row) n ts
  | BSON_sessionId _ => row
  end.

Definition queryKey (q : BSONObj) : LogicalSessionId :=
  match q with
  | BSON_sessionId lsid => lsid
  | BSON_record r => SessionTxnRecord.getSessionId r
  | BSON_set _ _ => 0%N
  end.

Fixpoint modifyFirst (q u : BSONObj) (rows : list SessionTxnRecord.t)
    : list SessionTxnRecord.t :=
  match rows with
  | [] => []
  | row :: rest =>
      if matches q row then applyUpdates u row :: rest
      else row :: modifyFirst q u rest
  end.

Definition lookup (db : Store) (lsid : LogicalSessionId) : option SessionTxnRecord.t :=
  match table db with
  | None => None
  | Some rows => find (matches (BSON_sessionId lsid)) rows
  end.

Definition applyRequest (db : Store) (req : UpdateRequest) : Store * Outcome UpdateResult :=
  match table db with
  | None => (db, Returned (mkUpdateResult 0 None))
  | Some rows =>
      if existsb (matches (getQuery req)) rows then
        (mkStore (Some (modifyFirst (getQuery req) (getUpdates req) rows)) (oplog db),
         Returned (mkUpdateResult 1 None))
      else if isUpsert req
              && negb (existsb (matches (BSON_sessionId (queryKey (getQuery req)))) rows)
      then
        let row := applyUpdates (getUpdates req)
                     (SessionTxnRecord.make (queryKey (getQuery req)) 0 0%N) in
        (mkStore (Some (rows ++ [row])) (oplog db),
         Returned (mkUpdateResult 0 (Some (queryKey (getQuery req)))))
      else (db, Returned (mkUpdateResult 0 None))
  end.

Definition chainFrom (db : Store) (ts : Timestamp) : list OplogEntry.t :=
  filter (fun e => (OplogEntry.getTimestamp e <=? ts)%N) (oplog db).

(** A field of the fail point's arguments: absent, a boolean, a number
    with an integer value, or a string.  The conversion to [int] of a
    value outside the range of [int] gives the smallest [int]. *)
Inductive Element :=
| EOO
| BoolElement (b : bool)
| NumberElement (z : Z)
| StringElement.

Definition eoo (e : Element) : bool :=
  match e with EOO => true | _ => false end.

Definition asBool (e : Element) : Outcome bool :=
  match e with
  | BoolElement b => Returned b
  | _ => Thrown (ErrorCodes_fromInt 13111)
  end.

Definition numberAsInt (e : Element) : Outcome Z :=
  match e with
  | NumberElement z =>
      Returned (if (- int_half <=? z) && (z <? int_half) then z else - int_half)
  | _ => Thrown (ErrorCodes_fromInt 13118)
  end.

Definition collaborators : Collaborators := {|
  kUninitializedTxnNumber := -1;
  Storage := Store;
  Document := SessionTxnRecord.t;
  getCollection := fun db => isSome (table db);
  findOne := fun db lsid => Returned (lookup db lsid);
  SessionTxnRecord_parse := fun doc => Returned doc;
  update := applyRequest;
  oplogChain := chainFrom;
  BSONElement := Element;
  BSONElement_eoo := eoo;
  BSONElement_Bool := asBool;
  BSONElement_NumberAsInt := numberAsInt
|}.

(** The same store with rows that do not parse. *)
Definition corrupt : Collaborators := {|
  kUninitializedTxnNumber := -1;
  Storage := Store;
  Document := SessionTxnRecord.t;
  getCollection := fun db => isSome (table db);
  findOne := fun db lsid => Returned (lookup db lsid);
  SessionTxnRecord_parse := fun _ => Thrown (ErrorCodes_fromInt 40414);
  update := applyRequest;
  oplogChain := chainFrom;
  BSONElement := Element;
  BSONElement_eoo := eoo;
  BSONElement_Bool := asBool;
  BSONElement_NumberAsInt := numberAsInt
|}.

Definition world (s : Session) (db : Store) (unit_ : option Store)
    : @World collaborators :=
  @mkWorld collaborators s db false unit_ kLocalReadConcern [] false None.

End InMemory.

(** ** Sample states *)

Definition record_3_50 : SessionTxnRecord.t := SessionTxnRecord.make 1%N 3 50%N.
Definition record_5_100 : SessionTxnRecord.t := SessionTxnRecord.make 1%N 5 100%N.

Definition cache_invalid : Session := mkSession 1%N false 0 None (-1).
Definition cache_at_5 : Session := mkSession 1%N true 0 None 5.
Definition cache_5_100 : Session := mkSession 1%N true 0 (Some record_5_100) 5.
Definition cache_7_over_3 : Session := mkSession 1%N true 0 (Some record_3_50) 7.

Definition store_missing : InMemory.Store := InMemory.mkStore None [].
Definition store_empty : InMemory.Store := InMemory.mkStore (Some []) [].
Definition store_3_50 : InMemory.Store := InMemory.mkStore (Some [record_3_50]) [].

Definition entry_stmt2 : OplogEntry.t := OplogEntry.make 100%N (Some 2) 12%N.
Definition entry_stmt1 : OplogEntry.t := OplogEntry.make 70%N (Some 1) 11%N.
Definition entry_stmt0 : OplogEntry.t := OplogEntry.make 50%N (Some 0) 10%N.
Definition entry_no_stmt : OplogEntry.t := OplogEntry.make 60%N None 13%N.

Definition store_logged : InMemory.Store :=
  InMemory.mkStore (Some [record_5_100]) [entry_stmt2; entry_stmt1; entry_stmt0].
Definition store_logged_bad : InMemory.Store :=
  InMemory.mkStore (Some [record_5_100])
                   [entry_stmt2; entry_stmt1; entry_no_stmt; entry_stmt0].

Definition invalidated_and_refreshed : @Window InMemory.collaborators :=
  @mkWindow InMemory.collaborators []
    [@OtherInvalidate InMemory.collaborators;
     @OtherRefresh InMemory.collaborators 1 (Some record_5_100)].

Definition invalidated_once : @Window InMemory.collaborators :=
  @mkWindow InMemory.collaborators [] [@OtherInvalidate InMemory.collaborators].

Definition cache_3_over_3 : Session := mkSession 1%N true 0 (Some record_3_50) 3.
Definition cache_wrong_owner : Session := mkSession 1%N true 0 (Some record_3_50) 5.

Definition fail_with_11601 : @FailPointData InMemory.collaborators :=
  @mkFailPointData InMemory.collaborators InMemory.EOO (InMemory.NumberElement 11601).

Definition fail_quietly : @FailPointData InMemory.collaborators :=
  @mkFailPointData InMemory.collaborators (InMemory.BoolElement false) InMemory.EOO.

Definition world_writing : @World InMemory.collaborators :=
  InMemory.world cache_at_5 store_empty (Some store_empty).

Definition world_failing : @World InMemory.collaborators :=
  @mkWorld InMemory.collaborators cache_at_5 store_empty false (Some store_empty)
           kLocalReadConcern [] false (Some fail_with_11601).

Definition world_failing_quietly : @World InMemory.collaborators :=
  @mkWorld InMemory.collaborators cache_at_5 store_empty false (Some store_empty)
           kLocalReadConcern [] false (Some fail_quietly).

Definition fail_mistyped : @FailPointData InMemory.collaborators :=
  @mkFailPointData InMemory.collaborators InMemory.StringElement
                   (InMemory.NumberElement 11601).

Definition world_failing_mistyped : @World InMemory.collaborators :=
  @mkWorld InMemory.collaborators cache_at_5 store_empty false (Some store_empty)
           kLocalReadConcern [] false (Some fail_mistyped).

Definition world_corrupt : @World InMemory.corrupt :=
  @mkWorld InMemory.corrupt cache_invalid store_3_50 false None
           kLocalReadConcern [] false None.

Definition request_5_100 : UpdateRequest :=
  mkUpdateRequest true (BSON_record record_5_100) (BSON_record record_5_100).

Definition store_5_100 : InMemory.Store := InMemory.mkStore (Some [record_5_100]) [].

Definition world_unrefreshed : @World InMemory.collaborators :=
  InMemory.world cache_invalid store_3_50 None.

Definition world_refreshed : @World InMemory.collaborators :=
  InMemory.world (mkSession 1%N true 0 (Some record_3_50) 3) store_3_50 None.

(** * Properties *)

(** ** Running cache code *)

Ltac run_cache :=
  unfold getLastWriteOpTimeTs, updateCacheOnCommit, refreshInstall, _beginTxn,
         _makeUpdateRequest, _checkIsActiveTransaction, _checkValid,
         bind, gets, modify, uassert, invariant, throw, ret;
  simpl.

Ltac bool_to_prop :=
  repeat match goal with
         | h : (_ =? _) = true |- _ => apply Z.eqb_eq in h
         | h : (_ =? _) = false |- _ => apply Z.eqb_neq in h
         | h : (_ <? _) = true |- _ => apply Z.ltb_lt in h
         | h : (_ <? _) = false |- _ => apply Z.ltb_ge in h
         | h : (_ >=? _) = true |- _ => rewrite Z.geb_leb in h; apply Z.leb_le in h
         | h : (_ >=? _) = false |- _ => rewrite Z.geb_leb in h; apply Z.leb_gt in h
         | h : (_ >? _) = true |- _ => rewrite Z.gtb_ltb in h; apply Z.ltb_lt in h
         | h : (_ >? _) = false |- _ => rewrite Z.gtb_ltb in h; apply Z.ltb_ge in h
         | h : (_ <? _)%N = true |- _ => apply N.ltb_lt in h
         | h : (_ <? _)%N = false |- _ => apply N.ltb_ge in h
         end.

Lemma set_activeTxnNumber_same (s : Session) :
  set_activeTxnNumber (_activeTxnNumber s) s = s.
Proof. destruct s; reflexivity. Qed.

(** C1. [_beginTxn] on an invalid cache throws
    ConflictingOperationInProgress; on a valid cache a number below the
    active one throws TransactionTooOld and leaves the cache as it was,
    the active number itself returns with the cache as it was, and a
    greater number returns with the active number set to it and every
    other field as it was. *)
Theorem beginTxn_admission (s : Session) (n : TxnNumber) :
  (_isValid s = false ->
   _beginTxn n s = (s, Thrown ConflictingOperationInProgress)) /\
  (_isValid s = true -> n < _activeTxnNumber s ->
   _beginTxn n s = (s, Thrown TransactionTooOld) /\
   _activeTxnNumber (fst (_beginTxn n s)) = _activeTxnNumber s) /\
  (_isValid s = true -> n = _activeTxnNumber s ->
   _beginTxn n s = (s, Returned tt)) /\
  (_isValid s = true -> n > _activeTxnNumber s ->
   _beginTxn n s =
   (mkSession (_sessionId s) (_isValid s) (_numInvalidations s)
              (_lastWrittenSessionRecord s) n,
    Returned tt) /\
   _activeTxnNumber (fst (_beginTxn n s)) = n).
Proof.
  split; [ | split; [ | split ]].
  - intros Hvalid. run_cache. rewrite Hvalid. reflexivity.
  - intros Hvalid Hlt. run_cache. rewrite Hvalid.
    destruct (n >=? _activeTxnNumber s) eqn:Hge; bool_to_prop; [lia | ].
    split; reflexivity.
  - intros Hvalid Heq. subst n. run_cache.
    rewrite Hvalid, Z.geb_leb, Z.leb_refl, Z.eqb_refl. reflexivity.
  - intros Hvalid Hgt. run_cache. rewrite Hvalid.
    destruct (n >=? _activeTxnNumber s) eqn:Hge; bool_to_prop; [ | lia].
    destruct (n =? _activeTxnNumber s) eqn:Heq; bool_to_prop; [lia | ].
    unfold set_activeTxnNumber. rewrite Hvalid. split; reflexivity.
Qed.

Lemma beginTxn_admission_witness :
  _beginTxn 3 cache_invalid = (cache_invalid, Thrown ConflictingOperationInProgress) /\
  (_beginTxn 3 cache_at_5 = (cache_at_5, Thrown TransactionTooOld) /\
   _activeTxnNumber (fst (_beginTxn 3 cache_at_5)) = 5) /\
  _beginTxn 5 cache_at_5 = (cache_at_5, Returned tt) /\
  (_beginTxn 8 cache_at_5 = (mkSession 1%N true 0 None 8, Returned tt) /\
   _activeTxnNumber (fst (_beginTxn 8 cache_at_5)) = 8).
Proof.
  split; [ | split; [ | split ]].
  - apply (proj1 (beginTxn_admission cache_invalid 3)). reflexivity.
  - apply (proj1 (proj2 (beginTxn_admission cache_at_5 3))); reflexivity.
  - apply (proj1 (proj2 (proj2 (beginTxn_admission cache_at_5 5)))); reflexivity.
  - apply (proj2 (proj2 (proj2 (beginTxn_admission cache_at_5 8)))); reflexivity.
Defined.

(** The public entry point adds only the caller's obligation to hold no
    lock; when it is met, [beginTxn] is [_beginTxn] under the mutex. *)
Lemma beginTxn_unlocked `{Collaborators} (w : World) (n : TxnNumber) :
  isLocked w = false -> beginTxn n w = withMutex (_beginTxn n) w.
Proof.
  intros Hlock. unfold beginTxn, bind, gets, invariant. rewrite Hlock. reflexivity.
Qed.

(** C7. [getLastWriteOpTimeTs] throws ConflictingOperationInProgress
    when the cache is invalid or the number is not the active one;
    otherwise it returns the null position when no record is cached or
    the record is of another transaction, and the record's write position
    when the record is of this transaction.  The cache is never changed. *)
Theorem getLastWriteOpTimeTs_cases (s : Session) (n : TxnNumber) :
  (_isValid s = false \/ n <> _activeTxnNumber s ->
   getLastWriteOpTimeTs n s = (s, Thrown ConflictingOperationInProgress)) /\
  (_isValid s = true -> n = _activeTxnNumber s ->
   _lastWrittenSessionRecord s = None ->
   getLastWriteOpTimeTs n s = (s, Returned Timestamp_null)) /\
  (forall r, _isValid s = true -> n = _activeTxnNumber s ->
   _lastWrittenSessionRecord s = Some r -> SessionTxnRecord.getTxnNum r <> n ->
   getLastWriteOpTimeTs n s = (s, Returned Timestamp_null)) /\
  (forall r, _isValid s = true -> n = _activeTxnNumber s ->
   _lastWrittenSessionRecord s = Some r -> SessionTxnRecord.getTxnNum r = n ->
   getLastWriteOpTimeTs n s =
   (s, Returned (SessionTxnRecord.getLastWriteOpTimeTs r))).
Proof.
  split; [ | split; [ | split ]].
  - intros [Hinv | Hne]; run_cache.
    + rewrite Hinv. reflexivity.
    + destruct (_isValid s); [ | reflexivity].
      destruct (n =? _activeTxnNumber s) eqn:Heq; bool_to_prop;
        [contradiction | reflexivity].
  - intros Hvalid -> Hrec. run_cache.
    rewrite Hvalid, Z.eqb_refl, Hrec. reflexivity.
  - intros r Hvalid Hn Hrec Hne. run_cache.
    rewrite Hvalid, <- Hn, Z.eqb_refl, Hrec.
    destruct (SessionTxnRecord.getTxnNum r =? n) eqn:Heq; bool_to_prop;
      [contradiction | reflexivity].
  - intros r Hvalid Hn Hrec Heq. run_cache.
    rewrite Hvalid, <- Hn, Z.eqb_refl, Hrec.
    apply Z.eqb_eq in Heq. rewrite Heq. reflexivity.
Qed.

Lemma getLastWriteOpTimeTs_cases_witness :
  getLastWriteOpTimeTs 3 cache_invalid
    = (cache_invalid, Thrown ConflictingOperationInProgress) /\
  getLastWriteOpTimeTs 5 cache_at_5 = (cache_at_5, Returned Timestamp_null) /\
  getLastWriteOpTimeTs 7 cache_7_over_3 = (cache_7_over_3, Returned Timestamp_null) /\
  getLastWriteOpTimeTs 5 cache_5_100 = (cache_5_100, Returned 100%N).
Proof.
  split; [ | split; [ | split ]].
  - apply (proj1 (getLastWriteOpTimeTs_cases cache_invalid 3)).
    left. reflexivity.
  - apply (proj1 (proj2 (getLastWriteOpTimeTs_cases cache_at_5 5))); reflexivity.
  - apply (proj1 (proj2 (proj2 (getLastWriteOpTimeTs_cases cache_7_over_3 7)))
             record_3_50); try reflexivity.
    simpl. lia.
  - apply (proj2 (proj2 (proj2 (getLastWriteOpTimeTs_cases cache_5_100 5)))
             record_5_100); reflexivity.
Defined.

(** ** The commit handler in closed form *)

Lemma updateCacheOnCommit_closed (n : TxnNumber) (stmts : list StmtId)
    (ts : Timestamp) (s : Session) :
  updateCacheOnCommit n stmts ts s =
  if _isValid s && (_activeTxnNumber s <=? n) then
    (mkSession (_sessionId s) true (_numInvalidations s)
               (Some (mergedRecord (_sessionId s) n ts (_lastWrittenSessionRecord s)))
               n,
     Returned tt)
  else (s, Returned tt).
Proof.
  destruct s as [sid valid k rec active]. run_cache.
  destruct valid; simpl; [ | reflexivity].
  destruct (n <? active) eqn:Hlt; bool_to_prop.
  - destruct (active <=? n) eqn:Hle; [apply Z.leb_le in Hle; lia | reflexivity].
  - assert (Hle : (active <=? n) = true) by (apply Z.leb_le; lia).
    assert (Hge : (n >=? active) = true) by (rewrite Z.geb_leb; exact Hle).
    simpl. rewrite Hle, Hge.
    destruct (n =? active) eqn:Heq; bool_to_prop; simpl.
    + subst active. destruct rec as [r | ]; simpl; [ | reflexivity].
      destruct r as [rsid rn rts]; simpl.
      destruct (n >? rn) eqn:Hgt; bool_to_prop; simpl;
        destruct (rts <? ts)%N eqn:Hts; bool_to_prop;
        unfold mergedRecord, set_lastWrittenSessionRecord,
               SessionTxnRecord.setTxnNum,
               SessionTxnRecord.setLastWriteOpTimeTs; simpl;
        repeat f_equal; lia.
    + destruct rec as [r | ]; simpl; [ | reflexivity].
      destruct r as [rsid rn rts]; simpl.
      destruct (n >? rn) eqn:Hgt; bool_to_prop; simpl;
        destruct (rts <? ts)%N eqn:Hts; bool_to_prop;
        unfold mergedRecord, set_lastWrittenSessionRecord,
               SessionTxnRecord.setTxnNum,
               SessionTxnRecord.setLastWriteOpTimeTs; simpl;
        repeat f_equal; lia.
Qed.

Lemma updateCacheOnCommit_returns (n : TxnNumber) (stmts : list StmtId)
    (ts : Timestamp) (s : Session) :
  snd (updateCacheOnCommit n stmts ts s) = Returned tt.
Proof.
  rewrite updateCacheOnCommit_closed.
  destruct (_isValid s && (_activeTxnNumber s <=? n)); reflexivity.
Qed.

(** C9. Running the commit handler a second time with the same number
    and write position leaves the cache exactly as the first run left it. *)
Theorem updateCacheOnCommit_idempotent (n : TxnNumber) (stmts : list StmtId)
    (ts : Timestamp) (s : Session) :
  fst (updateCacheOnCommit n stmts ts (fst (updateCacheOnCommit n stmts ts s)))
  = fst (updateCacheOnCommit n stmts ts s).
Proof.
  rewrite (updateCacheOnCommit_closed n stmts ts s).
  destruct (_isValid s && (_activeTxnNumber s <=? n)) eqn:Hguard; simpl.
  - rewrite updateCacheOnCommit_closed.
    destruct s as [sid valid k rec active]. simpl.
    rewrite (Z.leb_refl n). simpl.
    destruct rec as [r | ]; simpl.
    + rewrite <- Z.max_assoc, Z.max_id, <- N.max_assoc, N.max_id. reflexivity.
    + rewrite Z.max_id, N.max_id. reflexivity.
  - rewrite updateCacheOnCommit_closed, Hguard. reflexivity.
Qed.

(** ** Closed forms of the other cache mutations *)

Lemma _beginTxn_state (n : TxnNumber) (s : Session) :
  fst (_beginTxn n s) =
  if _isValid s && (_activeTxnNumber s <? n) then set_activeTxnNumber n s else s.
Proof.
  destruct s as [sid valid k rec active]. run_cache.
  destruct valid; simpl; [ | reflexivity].
  destruct (n >=? active) eqn:Hge; destruct (active <? n) eqn:Hlt;
    bool_to_prop; simpl; try lia; try reflexivity.
  - destruct (n =? active) eqn:Heq; bool_to_prop; [lia | reflexivity].
  - destruct (n =? active) eqn:Heq; bool_to_prop; [reflexivity | lia].
Qed.

Lemma refreshInstall_closed (k : Z) (row : option SessionTxnRecord.t) (s : Session) :
  refreshInstall k row s =
  if negb (_isValid s) && (_numInvalidations s =? k)
  then (installed row s, Returned true)
  else (s, Returned false).
Proof.
  destruct s as [sid valid e rec active]. run_cache.
  destruct (negb valid && (e =? k)); [ | reflexivity].
  destruct row; reflexivity.
Qed.

(** ** Invariant I2 *)

Lemma I2_refreshInstall (k : Z) (row : option SessionTxnRecord.t) (s : Session) :
  I2 s -> I2 (fst (refreshInstall k row s)).
Proof.
  intros Hs. rewrite refreshInstall_closed.
  destruct (negb (_isValid s) && (_numInvalidations s =? k)); simpl; [ | exact Hs].
  unfold I2, installed; simpl. destruct row; simpl; [lia | exact I].
Qed.

Lemma I2_beginTxn (n : TxnNumber) (s : Session) :
  I2 s -> I2 (fst (_beginTxn n s)).
Proof.
  intros Hs. rewrite _beginTxn_state.
  destruct (_isValid s && (_activeTxnNumber s <? n)) eqn:Hguard; [ | exact Hs].
  apply andb_true_iff in Hguard. destruct Hguard as [_ Hlt]. bool_to_prop.
  unfold I2 in *; simpl.
  destruct (_lastWrittenSessionRecord s); [lia | exact I].
Qed.

Lemma I2_updateCacheOnCommit (n : TxnNumber) (stmts : list StmtId)
    (ts : Timestamp) (s : Session) :
  I2 s -> I2 (fst (updateCacheOnCommit n stmts ts s)).
Proof.
  intros Hs. rewrite updateCacheOnCommit_closed.
  destruct (_isValid s && (_activeTxnNumber s <=? n)) eqn:Hguard; [ | exact Hs].
  apply andb_true_iff in Hguard. destruct Hguard as [_ Hle].
  apply Z.leb_le in Hle.
  unfold I2 in *; simpl.
  destruct (_lastWrittenSessionRecord s); simpl; lia.
Qed.

(** C3, as the code has it.  The handler never lowers a field of a
    cached record.  When the cache is valid and the number is not below
    the active one, the record's transaction number and write position
    become the maxima of the old and the new values; otherwise the
    handler returns before the merge and the record stays as it was.  On
    a valid cache whose active number is at most [n] and whose cached
    position is at most 200, handlers with positions 100 and 200 leave
    200 in either order. *)
Theorem commit_merge_monotone :
  (forall s n stmts ts r,
      _lastWrittenSessionRecord s = Some r ->
      exists r',
        _lastWrittenSessionRecord (fst (updateCacheOnCommit n stmts ts s)) = Some r' /\
        SessionTxnRecord.getTxnNum r <= SessionTxnRecord.getTxnNum r' /\
        (SessionTxnRecord.getLastWriteOpTimeTs r
         <= SessionTxnRecord.getLastWriteOpTimeTs r')%N) /\
  (forall s n stmts ts r,
      _lastWrittenSessionRecord s = Some r ->
      _isValid s = true -> _activeTxnNumber s <= n ->
      exists r',
        _lastWrittenSessionRecord (fst (updateCacheOnCommit n stmts ts s)) = Some r' /\
        SessionTxnRecord.getTxnNum r' = Z.max (SessionTxnRecord.getTxnNum r) n /\
        SessionTxnRecord.getLastWriteOpTimeTs r'
        = N.max (SessionTxnRecord.getLastWriteOpTimeTs r) ts) /\
  (forall s n stmts ts,
      _isValid s = false \/ n < _activeTxnNumber s ->
      fst (updateCacheOnCommit n stmts ts s) = s) /\
  (forall s n stmts1 stmts2,
      _isValid s = true -> _activeTxnNumber s <= n ->
      (cachedWritePosition s <= 200)%N ->
      cachedWritePosition
        (fst (updateCacheOnCommit n stmts2 200%N
                (fst (updateCacheOnCommit n stmts1 100%N s)))) = 200%N /\
      cachedWritePosition
        (fst (updateCacheOnCommit n stmts1 100%N
                (fst (updateCacheOnCommit n stmts2 200%N s)))) = 200%N).
Proof.
  split; [ | split; [ | split ]].
  - intros s n stmts ts r Hrec. rewrite updateCacheOnCommit_closed.
    destruct (_isValid s && (_activeTxnNumber s <=? n)); simpl.
    + rewrite Hrec. simpl. eexists. split; [reflexivity | simpl; lia].
    + exists r. split; [exact Hrec | lia].
  - intros s n stmts ts r Hrec Hvalid Hle. rewrite updateCacheOnCommit_closed.
    apply Z.leb_le in Hle. rewrite Hvalid, Hle. simpl.
    rewrite Hrec. simpl. eexists. split; [reflexivity | simpl; split; reflexivity].
  - intros s n stmts ts Hguard. rewrite updateCacheOnCommit_closed.
    destruct Hguard as [Hinv | Hlt].
    + rewrite Hinv. reflexivity.
    + destruct (_activeTxnNumber s <=? n) eqn:Hle.
      * apply Z.leb_le in Hle. lia.
      * rewrite andb_false_r. reflexivity.
  - intros s n stmts1 stmts2 Hvalid Hle Hpos.
    apply Z.leb_le in Hle.
    rewrite !(updateCacheOnCommit_closed n _ _ s), Hvalid, Hle. simpl.
    rewrite !updateCacheOnCommit_closed. simpl. rewrite (Z.leb_refl n). simpl.
    unfold cachedWritePosition in *. simpl.
    destruct (_lastWrittenSessionRecord s) as [r | ]; simpl in *; lia.
Qed.

Lemma commit_merge_monotone_witness :
  (exists r',
      _lastWrittenSessionRecord (fst (updateCacheOnCommit 5 [0] 200%N cache_7_over_3))
      = Some r' /\
      3 <= SessionTxnRecord.getTxnNum r' /\
      (50 <= SessionTxnRecord.getLastWriteOpTimeTs r')%N) /\
  (exists r',
      _lastWrittenSessionRecord (fst (updateCacheOnCommit 5 [0] 200%N cache_5_100))
      = Some r' /\
      SessionTxnRecord.getTxnNum r' = Z.max 5 5 /\
      SessionTxnRecord.getLastWriteOpTimeTs r' = N.max 100 200) /\
  fst (updateCacheOnCommit 5 [0] 200%N cache_7_over_3) = cache_7_over_3 /\
  (cachedWritePosition
     (fst (updateCacheOnCommit 5 [1] 200%N
             (fst (updateCacheOnCommit 5 [0] 100%N cache_at_5)))) = 200%N /\
   cachedWritePosition
     (fst (updateCacheOnCommit 5 [0] 100%N
             (fst (updateCacheOnCommit 5 [1] 200%N cache_at_5)))) = 200%N).
Proof.
  split; [ | split; [ | split ]].
  - apply (proj1 commit_merge_monotone cache_7_over_3 5 [0] 200%N record_3_50).
    reflexivity.
  - apply (proj1 (proj2 commit_merge_monotone) cache_5_100 5 [0] 200%N record_5_100).
    + reflexivity.
    + reflexivity.
    + simpl. lia.
  - apply (proj1 (proj2 (proj2 commit_merge_monotone)) cache_7_over_3 5 [0] 200%N).
    right. simpl. lia.
  - apply (proj2 (proj2 (proj2 commit_merge_monotone)) cache_at_5 5 [0] [1]).
    + reflexivity.
    + simpl. lia.
    + unfold cachedWritePosition, Timestamp_null. simpl. lia.
Defined.

(** The statement of C3 taken for every invocation fails: with active
    number 7 and a cached record of transaction 3 at position 50, the
    handler for transaction 5 at position 100 returns before the merge,
    and the record keeps 3 and 50, not the maxima 5 and 100. *)
Lemma commit_merge_not_max_for_stale_number :
  ~ (forall (s : Session) (n : TxnNumber) (stmts : list StmtId) (ts : Timestamp)
            (r : SessionTxnRecord.t),
        _lastWrittenSessionRecord s = Some r ->
        exists r',
          _lastWrittenSessionRecord (fst (updateCacheOnCommit n stmts ts s)) = Some r' /\
          SessionTxnRecord.getTxnNum r' = Z.max (SessionTxnRecord.getTxnNum r) n /\
          SessionTxnRecord.getLastWriteOpTimeTs r'
          = N.max (SessionTxnRecord.getLastWriteOpTimeTs r) ts).
Proof.
  intros Hclaim.
  destruct (Hclaim cache_7_over_3 5 [0] 100%N record_3_50 eq_refl)
    as [r' [Hrec [Htxn _]]].
  vm_compute in Hrec. inversion Hrec; subst r'.
  vm_compute in Htxn. discriminate Htxn.
Qed.

Section CacheInvariants.
Context `{Collaborators}.

Lemma invalidate_closed (s : Session) :
  invalidate s =
  (mkSession (_sessionId s) false (wrap_int (_numInvalidations s + 1)) None
             kUninitializedTxnNumber,
   Returned tt).
Proof. destruct s; reflexivity. Qed.

Lemma I2_invalidate (s : Session) : I2 (fst (invalidate s)).
Proof. rewrite invalidate_closed. exact I. Qed.

Lemma I2_cacheStep (s s' : Session) : cacheStep s s' -> I2 s -> I2 s'.
Proof.
  intros Hstep Hs. destruct Hstep.
  - apply I2_refreshInstall; exact Hs.
  - apply I2_beginTxn; exact Hs.
  - apply I2_updateCacheOnCommit; exact Hs.
  - apply I2_invalidate.
Qed.

(** C4. In every cache state reached from the constructor by refresh
    installs, transaction admissions, commit handlers and invalidations,
    a cached record's transaction number is at most the active one. *)
Theorem I2_invariant (sessionId : LogicalSessionId) (s : Session) :
  reachable sessionId s -> I2 s.
Proof.
  induction 1 as [ | s s' _ IH Hstep].
  - exact I.
  - exact (I2_cacheStep s s' Hstep IH).
Qed.

Lemma wrap_int_range (z : Z) : int_range (wrap_int z).
Proof.
  unfold int_range, wrap_int, int_modulus, int_half.
  pose proof (Z.mod_pos_bound (z + 2 ^ 31) (2 ^ 32) ltac:(lia)). lia.
Qed.

Lemma numInvalidations_in_range (sessionId : LogicalSessionId) (s : Session) :
  reachable sessionId s -> int_range (_numInvalidations s).
Proof.
  induction 1 as [ | s s' _ IH Hstep].
  - unfold int_range, int_half. simpl. lia.
  - destruct Hstep.
    + rewrite refreshInstall_closed.
      destruct (negb (_isValid s) && (_numInvalidations s =? k)); exact IH.
    + rewrite _beginTxn_state.
      destruct (_isValid s && (_activeTxnNumber s <? n)); exact IH.
    + rewrite updateCacheOnCommit_closed.
      destruct (_isValid s && (_activeTxnNumber s <=? n)); exact IH.
    + rewrite invalidate_closed. apply wrap_int_range.
Qed.

End CacheInvariants.

(** The sample cache with active number 7 over a record of transaction 3
    is reached by a refresh that loads the record and two admissions. *)
Lemma cache_7_over_3_reachable :
  @reachable InMemory.collaborators 1%N cache_7_over_3.
Proof.
  pose (s0 := @Session_ctor InMemory.collaborators 1%N).
  pose (s1 := fst (refreshInstall 0 (Some record_3_50) s0)).
  pose (s2 := fst (_beginTxn 5 s1)).
  apply (@reachable_step InMemory.collaborators 1%N s2 cache_7_over_3).
  - apply (@reachable_step InMemory.collaborators 1%N s1 s2).
    + apply (@reachable_step InMemory.collaborators 1%N s0 s1).
      * apply reachable_ctor.
      * apply step_refresh.
    + apply step_beginTxn.
  - exact (step_beginTxn 7 s2).
Qed.

Lemma I2_invariant_witness :
  @reachable InMemory.collaborators 1%N cache_7_over_3 /\ I2 cache_7_over_3.
Proof.
  split.
  - exact cache_7_over_3_reachable.
  - apply (@I2_invariant InMemory.collaborators 1%N cache_7_over_3).
    exact cache_7_over_3_reachable.
Defined.

(** ** Frame rules *)

Create HintDb frame.

Lemma frames_ret {S A T} (proj : S -> T) (a : A) : frames proj (ret a).
Proof. intros s. reflexivity. Qed.

Lemma frames_gets {S A T} (proj : S -> T) (f : S -> A) : frames proj (gets f).
Proof. intros s. reflexivity. Qed.

Lemma frames_uassert {S T} (proj : S -> T) (code : ErrorCode) (cond : bool) :
  frames proj (uassert code cond).
Proof. intros s. reflexivity. Qed.

Lemma frames_invariant {S T} (proj : S -> T) (cond : bool) :
  frames proj (invariant cond).
Proof. intros s. reflexivity. Qed.

Lemma frames_throw {S A T} (proj : S -> T) (code : ErrorCode) :
  frames proj (@throw S A code).
Proof. intros s. reflexivity. Qed.

Lemma frames_modify {S T} (proj : S -> T) (f : S -> S) :
  (forall s, proj (f s) = proj s) -> frames proj (modify f).
Proof. intros Hf s. apply Hf. Qed.

Lemma frames_bind {S A B T} (proj : S -> T) (m : M S A) (k : A -> M S B) :
  frames proj m -> (forall a, frames proj (k a)) -> frames proj (bind m k).
Proof.
  intros Hm Hk s. unfold bind.
  specialize (Hm s). destruct (m s) as [s' [a | c | ]]; simpl in *.
  - rewrite (Hk a s'). exact Hm.
  - exact Hm.
  - exact Hm.
Qed.

#[local] Hint Resolve frames_ret frames_gets frames_uassert frames_invariant
  frames_throw frames_bind : frame.

Lemma frames_checkValid : frames (fun s => s) _checkValid.
Proof. unfold _checkValid. auto with frame. Qed.

Lemma frames_checkIsActiveTransaction (n : TxnNumber) :
  frames (fun s => s) (_checkIsActiveTransaction n).
Proof. unfold _checkIsActiveTransaction. auto with frame. Qed.

Lemma frames_makeUpdateRequest (n : TxnNumber) (ts : Timestamp) :
  frames (fun s => s) (_makeUpdateRequest n ts).
Proof.
  unfold _makeUpdateRequest. apply frames_bind; [auto with frame | ].
  intros [r | ]; auto with frame.
Qed.

#[local] Hint Resolve frames_checkValid frames_checkIsActiveTransaction
  frames_makeUpdateRequest : frame.

Section WriteCompletion.
Context `{Collaborators}.

Lemma frames_withMutex {A} (m : M Session A) :
  frames (fun s => s) m -> frames session (withMutex m).
Proof.
  intros Hm w. unfold withMutex.
  specialize (Hm (session w)). destruct (m (session w)) as [s' r]. exact Hm.
Qed.

Lemma frames_runUpdate (req : UpdateRequest) : frames session (runUpdate req).
Proof.
  intros w. unfold runUpdate.
  destruct (update (storage w) req) as [db' r]. reflexivity.
Qed.

Lemma frames_updateSessionEntry (req : UpdateRequest) :
  frames session (updateSessionEntry req).
Proof.
  unfold updateSessionEntry.
  repeat (apply frames_bind; [auto using frames_runUpdate with frame | intros ?]).
  destruct (_ && _); auto with frame.
Qed.

Lemma frames_registerUpdateCacheOnCommit (n : TxnNumber) (stmts : list StmtId)
    (ts : Timestamp) :
  frames session (_registerUpdateCacheOnCommit n stmts ts).
Proof.
  unfold _registerUpdateCacheOnCommit.
  apply frames_bind; [apply frames_modify; reflexivity | intros _].
  apply frames_bind; [auto with frame | intros [data | ]]; [ | auto with frame].
  apply frames_bind.
  - destruct (BSONElement_eoo (closeConnection data)).
    + apply frames_modify; reflexivity.
    + apply frames_bind; [intros w; reflexivity | intros [ | ]].
      * apply frames_modify; reflexivity.
      * auto with frame.
  - intros _. destruct (negb (BSONElement_eoo (failBeforeCommitExceptionCode data))).
    + apply frames_bind; [intros w; reflexivity | intros code; auto with frame].
    + auto with frame.
Qed.

Lemma frames_onWriteOpCompletedOnPrimary (n : TxnNumber) (stmts : list StmtId)
    (ts : Timestamp) :
  frames session (onWriteOpCompletedOnPrimary n stmts ts).
Proof.
  unfold onWriteOpCompletedOnPrimary.
  apply frames_bind; [auto with frame | intros u].
  apply frames_bind; [auto with frame | intros _].
  apply frames_bind; [apply frames_withMutex; auto 10 with frame | intros req].
  apply frames_bind; [apply frames_updateSessionEntry | intros _].
  apply frames_registerUpdateCacheOnCommit.
Qed.

Lemma frames_abort : frames session WriteUnitOfWork_abort.
Proof.
  intros w. unfold WriteUnitOfWork_abort, modify. simpl.
  destruct (writeUnitOfWork w); reflexivity.
Qed.

(** C2. [onWriteOpCompletedOnPrimary] leaves every field of the cache as
    it was, whatever its outcome; when the write unit of work is then
    rolled back, so that the registered handler never runs, the cache is
    still the one from before the call. *)
Theorem onWriteOpCompletedOnPrimary_frame (w : World) (n : TxnNumber)
    (stmts : list StmtId) (ts : Timestamp) :
  session (fst (onWriteOpCompletedOnPrimary n stmts ts w)) = session w /\
  session (fst (WriteUnitOfWork_abort
                  (fst (onWriteOpCompletedOnPrimary n stmts ts w)))) = session w.
Proof.
  split.
  - apply frames_onWriteOpCompletedOnPrimary.
  - rewrite frames_abort. apply frames_onWriteOpCompletedOnPrimary.
Qed.

(** C5. A call made inside a write unit of work, on a valid cache and
    for the active transaction, whose upsert on the existing table
    reports zero documents modified and no upserted id, throws
    WriteConflict; the cache is as before and no handler is registered. *)
Theorem onWriteOpCompletedOnPrimary_write_conflict (w : World) (n : TxnNumber)
    (stmts : list StmtId) (ts : Timestamp) (req : UpdateRequest)
    (db' : Storage) (res : UpdateResult) :
  isSome (writeUnitOfWork w) = true ->
  _isValid (session w) = true ->
  n = _activeTxnNumber (session w) ->
  getCollection (storage w) = true ->
  snd (_makeUpdateRequest n ts (session w)) = Returned req ->
  update (storage w) req = (db', Returned res) ->
  numDocsModified res = 0 ->
  upserted res = None ->
  onWriteOpCompletedOnPrimary n stmts ts w = (set_storage db' w, Thrown WriteConflict) /\
  session (fst (onWriteOpCompletedOnPrimary n stmts ts w)) = session w /\
  changes (fst (onWriteOpCompletedOnPrimary n stmts ts w)) = changes w.
Proof.
  intros Hunit Hvalid Hactive Hcoll Hreq Hupdate Hmod Hups.
  assert (Hrun : onWriteOpCompletedOnPrimary n stmts ts w
                 = (set_storage db' w, Thrown WriteConflict)).
  { unfold onWriteOpCompletedOnPrimary, updateSessionEntry, runUpdate, withMutex.
    destruct w as [s db locked u level cs ended fp]. simpl in *.
    destruct s as [sid valid k rec active]. simpl in *. subst valid n.
    revert Hreq. run_cache. rewrite Hunit, Z.eqb_refl. simpl.
    destruct rec as [r | ]; simpl; intros Hreq; inversion Hreq; subst req;
      simpl; rewrite Hcoll; simpl; rewrite Hupdate; simpl;
      rewrite Hmod, Hups; reflexivity. }
  rewrite Hrun. simpl. repeat split; reflexivity.
Qed.

End WriteCompletion.

Lemma onWriteOpCompletedOnPrimary_write_conflict_witness :
  let w := InMemory.world cache_at_5 store_3_50 (Some store_3_50) in
  onWriteOpCompletedOnPrimary 5 [0] 100%N w = (w, Thrown WriteConflict) /\
  session (fst (onWriteOpCompletedOnPrimary 5 [0] 100%N w)) = session w /\
  changes (fst (onWriteOpCompletedOnPrimary 5 [0] 100%N w)) = changes w.
Proof.
  exact (@onWriteOpCompletedOnPrimary_write_conflict InMemory.collaborators
           (InMemory.world cache_at_5 store_3_50 (Some store_3_50)) 5 [0] 100%N
           (mkUpdateRequest true
              (BSON_record (SessionTxnRecord.make 1%N 5 100%N))
              (BSON_record (SessionTxnRecord.make 1%N 5 100%N)))
           store_3_50 (mkUpdateResult 0 None)
           eq_refl eq_refl eq_refl eq_refl eq_refl eq_refl eq_refl eq_refl).
Defined.

(** ** The invalidation counter *)

Lemma wrap_int_small (z : Z) : int_range z -> wrap_int z = z.
Proof.
  unfold int_range, wrap_int, int_modulus, int_half. intros Hz.
  rewrite Z.mod_small; lia.
Qed.

Lemma wrap_int_add_l (a b : Z) : wrap_int (wrap_int a + b) = wrap_int (a + b).
Proof.
  unfold wrap_int. f_equal.
  replace ((a + int_half) mod int_modulus - int_half + b + int_half)
    with ((a + int_half) mod int_modulus + b) by lia.
  rewrite Z.add_mod_idemp_l by (unfold int_modulus; lia).
  f_equal. lia.
Qed.

Lemma wrap_int_shift_neq (e k : Z) :
  int_range e -> 0 < k < int_modulus -> wrap_int (e + k) <> e.
Proof.
  unfold int_range, wrap_int, int_modulus, int_half.
  change (2 ^ 32) with 4294967296. change (2 ^ 31) with 2147483648.
  intros He Hk Heq.
  pose proof (Z.div_mod (e + k + 2147483648) 4294967296 ltac:(lia)) as Hdiv.
  lia.
Qed.

Lemma set_session_same `{Collaborators} (w : World) : set_session (session w) w = w.
Proof. destruct w; reflexivity. Qed.

Section RefreshGuard.
Context `{Collaborators}.

Lemma session_withMutex {A} (m : M Session A) (w : World) :
  session (fst (withMutex m w)) = fst (m (session w)).
Proof. unfold withMutex. destruct (m (session w)); reflexivity. Qed.

Lemma numInvalidations_interfere (w : World) (i : Interference) :
  _numInvalidations (session (interfere w i)) =
  if isInvalidate i then wrap_int (_numInvalidations (session w) + 1)
  else _numInvalidations (session w).
Proof.
  destruct i as [ | n | c | k row | db]; unfold interfere;
    try rewrite session_withMutex.
  - rewrite invalidate_closed. reflexivity.
  - rewrite _beginTxn_state.
    destruct (_isValid (session w) && (_activeTxnNumber (session w) <? n));
      reflexivity.
  - unfold runChange. rewrite updateCacheOnCommit_closed.
    destruct (_isValid (session w) && (_activeTxnNumber (session w) <=? _));
      reflexivity.
  - rewrite refreshInstall_closed.
    destruct (negb (_isValid (session w)) && (_numInvalidations (session w) =? k));
      reflexivity.
  - reflexivity.
Qed.

Lemma numInvalidations_fold (l : list Interference) (w : World) :
  int_range (_numInvalidations (session w)) ->
  _numInvalidations (session (fold_left interfere l w)) =
  wrap_int (_numInvalidations (session w) + Z.of_nat (invalidations l)).
Proof.
  revert w. induction l as [ | i l IH]; intros w Hrange.
  - simpl. rewrite Z.add_0_r. symmetry. apply wrap_int_small. exact Hrange.
  - simpl fold_left. rewrite IH.
    + rewrite numInvalidations_interfere. unfold invalidations. simpl filter.
      destruct (isInvalidate i).
      * rewrite wrap_int_add_l. simpl length. f_equal. lia.
      * reflexivity.
    + rewrite numInvalidations_interfere.
      destruct (isInvalidate i); [apply wrap_int_range | exact Hrange].
Qed.

Lemma isValid_interfere (w : World) (i : Interference) :
  isRefresh i = false -> _isValid (session w) = false ->
  _isValid (session (interfere w i)) = false.
Proof.
  intros Hi Hw.
  destruct i as [ | n | c | k row | db]; unfold interfere;
    try rewrite session_withMutex.
  - rewrite invalidate_closed. reflexivity.
  - rewrite _beginTxn_state, Hw. exact Hw.
  - unfold runChange. rewrite updateCacheOnCommit_closed, Hw. exact Hw.
  - discriminate Hi.
  - exact Hw.
Qed.

Lemma isValid_fold (l : list Interference) (w : World) :
  forallb (fun i => negb (isRefresh i)) l = true ->
  _isValid (session w) = false ->
  _isValid (session (fold_left interfere l w)) = false.
Proof.
  revert w. induction l as [ | i l IH]; intros w Hl Hw.
  - exact Hw.
  - simpl in Hl. apply andb_true_iff in Hl. destruct Hl as [Hi Hl].
    simpl. apply IH; [exact Hl | ].
    apply isValid_interfere; [ | exact Hw].
    destruct (isRefresh i); [discriminate Hi | reflexivity].
Qed.

Lemma afterWindow_fold (win : Window) (w : World) :
  afterWindow win w = fold_left interfere (beforeLookup win ++ afterLookup win) w.
Proof. unfold afterWindow. rewrite fold_left_app. reflexivity. Qed.

Lemma withMutex_refreshInstall (k : Z) (row : option SessionTxnRecord.t) (w : World) :
  withMutex (refreshInstall k row) w =
  if negb (_isValid (session w)) && (_numInvalidations (session w) =? k)
  then (worldWithCache (installed row (session w)) w, Returned true)
  else (w, Returned false).
Proof.
  unfold withMutex. rewrite refreshInstall_closed.
  destruct (negb (_isValid (session w)) && (_numInvalidations (session w) =? k)).
  - reflexivity.
  - rewrite set_session_same. reflexivity.
Qed.

Lemma refreshIteration_returned (win : Window) (w : World)
    (row : option SessionTxnRecord.t) :
  lookedUp win w = Returned row ->
  refreshIteration win w =
  withMutex (refreshInstall (_numInvalidations (session w)) row) (afterWindow win w).
Proof.
  unfold lookedUp, atLookup, refreshIteration, afterWindow. intros Hlook.
  rewrite Hlook. reflexivity.
Qed.

Lemma refreshIteration_thrown (win : Window) (w : World) (c : ErrorCode) :
  lookedUp win w = Thrown c ->
  refreshIteration win w = (atLookup win w, Thrown c).
Proof.
  unfold lookedUp, atLookup, refreshIteration. intros Hlook.
  rewrite Hlook. reflexivity.
Qed.

Lemma refreshIteration_aborted (win : Window) (w : World) :
  lookedUp win w = Aborted ->
  refreshIteration win w = (atLookup win w, Aborted).
Proof.
  unfold lookedUp, atLookup, refreshIteration. intros Hlook.
  rewrite Hlook. reflexivity.
Qed.

Lemma refreshIteration_discards (win : Window) (w : World)
    (row : option SessionTxnRecord.t) :
  int_range (_numInvalidations (session w)) ->
  0 < Z.of_nat (invalidations (beforeLookup win ++ afterLookup win)) < int_modulus ->
  lookedUp win w = Returned row ->
  refreshIteration win w = (afterWindow win w, Returned false).
Proof.
  intros Hrange Hcount Hlook.
  rewrite (refreshIteration_returned win w row Hlook), withMutex_refreshInstall.
  assert (Hepoch : (_numInvalidations (session (afterWindow win w))
                    =? _numInvalidations (session w)) = false).
  { apply Z.eqb_neq. rewrite afterWindow_fold, numInvalidations_fold by exact Hrange.
    apply wrap_int_shift_neq; assumption. }
  rewrite Hepoch, andb_false_r. reflexivity.
Qed.

Lemma refreshIteration_quiet (w : World) (row : option SessionTxnRecord.t) :
  _isValid (session w) = false ->
  lookupTxnRecord (storage w) (_sessionId (session w)) = Returned row ->
  refreshIteration quiet w = (worldWithCache (installed row (session w)) w, Returned true).
Proof.
  intros Hinvalid Hlook.
  rewrite (refreshIteration_returned quiet w row Hlook), withMutex_refreshInstall.
  unfold afterWindow, quiet. simpl. rewrite Hinvalid, Z.eqb_refl. reflexivity.
Qed.

Lemma refreshIteration_breaks_valid (win : Window) (w w' : World) :
  refreshIteration win w = (w', Returned true) -> _isValid (session w') = true.
Proof.
  unfold refreshIteration.
  destruct (lookupTxnRecord _ _) as [row | c | ]; [ | discriminate | discriminate].
  rewrite withMutex_refreshInstall.
  destruct (negb _ && _); intros Heq; inversion Heq; reflexivity.
Qed.

Lemma refreshLoop_valid (windows : list Window) (w w' : World) :
  refreshLoop windows w = Some (w', Returned tt) -> _isValid (session w') = true.
Proof.
  revert w. induction windows as [ | win rest IH]; intros w; simpl.
  - destruct (_isValid (session w)) eqn:Hvalid; [ | discriminate].
    intros Heq; inversion Heq; subst w'. exact Hvalid.
  - destruct (_isValid (session w)) eqn:Hvalid.
    + intros Heq; inversion Heq; subst w'. exact Hvalid.
    + destruct (refreshIteration win w) as [w1 [[ | ] | c | ]] eqn:Hiter.
      * intros Heq; inversion Heq; subst w'.
        exact (refreshIteration_breaks_valid win w w1 Hiter).
      * apply IH.
      * discriminate.
      * discriminate.
Qed.

Lemma refreshLoop_throws_from_lookup (windows : list Window) (w w' : World)
    (c : ErrorCode) :
  refreshLoop windows w = Some (w', Thrown c) ->
  exists db sessionId, lookupTxnRecord db sessionId = Thrown c.
Proof.
  revert w. induction windows as [ | win rest IH]; intros w; simpl.
  - destruct (_isValid (session w)); discriminate.
  - destruct (_isValid (session w)); [discriminate | ].
    destruct (lookedUp win w) as [row | c' | ] eqn:Hlook.
    + rewrite (refreshIteration_returned win w row Hlook), withMutex_refreshInstall.
      destruct (negb _ && _); [discriminate | apply IH].
    + rewrite (refreshIteration_thrown win w c' Hlook).
      intros Heq; inversion Heq; subst c'.
      unfold lookedUp in Hlook. eauto.
    + rewrite (refreshIteration_aborted win w Hlook). discriminate.
Qed.

Lemma refreshLoop_next (win : Window) (rest : list Window) (w : World) :
  _isValid (session w) = false ->
  refreshLoop (win :: rest) w =
  match refreshIteration win w with
  | (w', Returned true) => Some (w', Returned tt)
  | (w', Returned false) => refreshLoop rest w'
  | (w', Thrown c) => Some (w', Thrown c)
  | (w', Aborted) => Some (w', Aborted)
  end.
Proof. intros Hinvalid. simpl. rewrite Hinvalid. reflexivity. Qed.

Lemma refreshFromStorageIfNeeded_quiet (w : World) (row : option SessionTxnRecord.t) :
  isLocked w = false -> readConcernLevel w = kLocalReadConcern ->
  _isValid (session w) = false ->
  lookupTxnRecord (storage w) (_sessionId (session w)) = Returned row ->
  refreshFromStorageIfNeeded [quiet] w =
  Some (worldWithCache (installed row (session w)) w, Returned tt).
Proof.
  intros Hlock Hlevel Hinvalid Hlook. unfold refreshFromStorageIfNeeded.
  rewrite Hlock, Hlevel. simpl.
  rewrite Hinvalid, (refreshIteration_quiet w row Hinvalid Hlook). reflexivity.
Qed.

(** C6, as the code has it.  The locked tail of a refresh iteration
    installs the row it looked up exactly when the cache is still invalid
    and the invalidation counter equals the snapshot, and otherwise
    changes nothing.  When invalidations (fewer than the counter's period)
    fell into the unlocked window, the iteration installs nothing.  When
    no other refresh fell into the window either, the cache is invalid
    when the mutex is taken again and the loop runs its next iteration
    from that state, so that an undisturbed next iteration installs the
    row of its own lookup.  When another refresh has made the cache valid
    in the window, the loop ends with the cache as the window left it. *)
Theorem refresh_epoch_guard :
  (forall k row s,
      (_isValid s = false /\ _numInvalidations s = k /\
       refreshInstall k row s = (installed row s, Returned true)) \/
      ((_isValid s = true \/ _numInvalidations s <> k) /\
       refreshInstall k row s = (s, Returned false))) /\
  (forall win w row,
      int_range (_numInvalidations (session w)) ->
      0 < Z.of_nat (invalidations (beforeLookup win ++ afterLookup win)) < int_modulus ->
      lookedUp win w = Returned row ->
      refreshIteration win w = (afterWindow win w, Returned false)) /\
  (forall win next rest w row,
      _isValid (session w) = false ->
      int_range (_numInvalidations (session w)) ->
      0 < Z.of_nat (invalidations (beforeLookup win ++ afterLookup win)) < int_modulus ->
      forallb (fun i => negb (isRefresh i)) (beforeLookup win ++ afterLookup win) = true ->
      lookedUp win w = Returned row ->
      _isValid (session (afterWindow win w)) = false /\
      refreshLoop (win :: next :: rest) w =
      match refreshIteration next (afterWindow win w) with
      | (w', Returned true) => Some (w', Returned tt)
      | (w', Returned false) => refreshLoop rest w'
      | (w', Thrown c) => Some (w', Thrown c)
      | (w', Aborted) => Some (w', Aborted)
      end /\
      (forall row',
          lookupTxnRecord (storage (afterWindow win w))
                          (_sessionId (session (afterWindow win w))) = Returned row' ->
          refreshLoop (win :: quiet :: rest) w =
          Some (worldWithCache (installed row' (session (afterWindow win w)))
                               (afterWindow win w),
                Returned tt))) /\
  (forall win rest w row,
      _isValid (session w) = false ->
      int_range (_numInvalidations (session w)) ->
      0 < Z.of_nat (invalidations (beforeLookup win ++ afterLookup win)) < int_modulus ->
      lookedUp win w = Returned row ->
      _isValid (session (afterWindow win w)) = true ->
      refreshLoop (win :: rest) w = Some (afterWindow win w, Returned tt)).
Proof.
  split; [ | split; [ | split ]].
  - intros k row s. rewrite refreshInstall_closed.
    destruct (_isValid s) eqn:Hvalid; simpl.
    + right. split; [left; reflexivity | reflexivity].
    + destruct (_numInvalidations s =? k) eqn:Hk; bool_to_prop.
      * left. repeat split; [exact Hk].
      * right. split; [right; exact Hk | reflexivity].
  - exact refreshIteration_discards.
  - intros win next rest w row Hinvalid Hrange Hcount Hquiet Hlook.
    assert (Hafter : _isValid (session (afterWindow win w)) = false).
    { rewrite afterWindow_fold. apply isValid_fold; assumption. }
    assert (Hstep : forall more,
               refreshLoop (win :: more) w = refreshLoop more (afterWindow win w)).
    { intros more. rewrite (refreshLoop_next win more w Hinvalid).
      rewrite (refreshIteration_discards win w row) by assumption. reflexivity. }
    split; [exact Hafter | split].
    + rewrite Hstep. apply refreshLoop_next. exact Hafter.
    + intros row' Hlook'. rewrite Hstep.
      rewrite (refreshLoop_next quiet rest _ Hafter).
      rewrite (refreshIteration_quiet _ row' Hafter Hlook'). reflexivity.
  - intros win rest w row Hinvalid Hrange Hcount Hlook Hvalid.
    rewrite (refreshLoop_next win rest w Hinvalid).
    rewrite (refreshIteration_discards win w row) by assumption.
    destruct rest; simpl; rewrite Hvalid; reflexivity.
Qed.

End RefreshGuard.

Lemma refresh_epoch_guard_witness :
  refreshIteration invalidated_once world_unrefreshed
  = (InMemory.world (mkSession 1%N false 1 None (-1)) store_3_50 None,
     Returned false) /\
  (_isValid (session (afterWindow invalidated_once world_unrefreshed)) = false /\
   refreshLoop [invalidated_once; quiet; quiet] world_unrefreshed =
   Some (InMemory.world (mkSession 1%N true 1 (Some record_3_50) 3) store_3_50 None,
         Returned tt) /\
   refreshLoop [invalidated_once; quiet] world_unrefreshed =
   Some (InMemory.world (mkSession 1%N true 1 (Some record_3_50) 3) store_3_50 None,
         Returned tt)) /\
  refreshLoop [invalidated_and_refreshed; quiet] world_unrefreshed =
  Some (InMemory.world (mkSession 1%N true 1 (Some record_5_100) 5) store_3_50 None,
        Returned tt).
Proof.
  pose proof (@refresh_epoch_guard InMemory.collaborators)
    as [_ [Hdiscard [Hretry Hexit]]].
  assert (Hrange : int_range (_numInvalidations (session world_unrefreshed)))
    by (vm_compute; split; [discriminate | reflexivity]).
  assert (Hone : 0 < Z.of_nat (invalidations (beforeLookup invalidated_once
                                               ++ afterLookup invalidated_once))
                 < int_modulus)
    by (vm_compute; split; reflexivity).
  assert (Hone' : 0 < Z.of_nat (invalidations
                                  (beforeLookup invalidated_and_refreshed
                                   ++ afterLookup invalidated_and_refreshed))
                  < int_modulus)
    by (vm_compute; split; reflexivity).
  split; [ | split].
  - exact (Hdiscard invalidated_once world_unrefreshed (Some record_3_50)
             Hrange Hone eq_refl).
  - destruct (Hretry invalidated_once quiet [quiet] world_unrefreshed
                (Some record_3_50) eq_refl Hrange Hone eq_refl eq_refl)
      as [Hinvalid [Hnext _]].
    destruct (Hretry invalidated_once quiet [] world_unrefreshed
                (Some record_3_50) eq_refl Hrange Hone eq_refl eq_refl)
      as [_ [_ Hfresh]].
    split; [exact Hinvalid | split].
    + exact Hnext.
    + exact (Hfresh (Some record_3_50) eq_refl).
  - exact (Hexit invalidated_and_refreshed [quiet] world_unrefreshed
             (Some record_3_50) eq_refl Hrange Hone' eq_refl eq_refl).
Defined.

(** The statement of C6 about an intervening invalidation fails when
    another thread's refresh follows the invalidation in the same window:
    the counter has changed and the read is discarded, but the cache is
    valid when the mutex is taken again, holding the other thread's row,
    and the loop ends instead of running another iteration. *)
Lemma refresh_does_not_retry_after_other_refresh :
  _isValid (session world_unrefreshed) = false /\
  invalidations (beforeLookup invalidated_and_refreshed
                 ++ afterLookup invalidated_and_refreshed) = 1%nat /\
  _numInvalidations (session (afterWindow invalidated_and_refreshed world_unrefreshed))
  <> _numInvalidations (session world_unrefreshed) /\
  _isValid (session (afterWindow invalidated_and_refreshed world_unrefreshed)) = true /\
  forall rest,
    refreshLoop (invalidated_and_refreshed :: rest) world_unrefreshed =
    Some (InMemory.world (mkSession 1%N true 1 (Some record_5_100) 5) store_3_50 None,
          Returned tt).
Proof.
  split; [reflexivity | split; [reflexivity | split; [ | split ]]].
  - vm_compute. discriminate.
  - reflexivity.
  - intros rest. destruct rest; reflexivity.
Qed.

(** ** The missing table *)

Section MissingTable.
Context `{Collaborators}.

Lemma updateSessionEntry_missing (w : World) (req : UpdateRequest) :
  getCollection (storage w) = false ->
  updateSessionEntry req w = (w, Thrown Location40527).
Proof.
  intros Hmissing. unfold updateSessionEntry, bind, gets, uassert.
  rewrite Hmissing. reflexivity.
Qed.

Lemma onWriteOpCompletedOnPrimary_missing (w : World) (n : TxnNumber)
    (stmts : list StmtId) (ts : Timestamp) :
  getCollection (storage w) = false ->
  isSome (writeUnitOfWork w) = true ->
  _isValid (session w) = true ->
  n = _activeTxnNumber (session w) ->
  onWriteOpCompletedOnPrimary n stmts ts w = (w, Thrown Location40527).
Proof.
  intros Hmissing Hunit Hvalid Hactive.
  unfold onWriteOpCompletedOnPrimary, withMutex.
  unfold bind at 1 2 3. unfold gets at 1, invariant. rewrite Hunit.
  destruct w as [s db locked u level cs ended fp]. simpl in *.
  destruct s as [sid valid k rec active]. simpl in *. subst valid n.
  run_cache. rewrite Z.eqb_refl.
  destruct rec as [r | ]; simpl;
    unfold updateSessionEntry, bind, gets, uassert; simpl;
    rewrite Hmissing; reflexivity.
Qed.

Lemma updateSessionRecordOnSecondary_missing (w : World) (attempts : nat)
    (rec : SessionTxnRecord.t) :
  getCollection (storage w) = false ->
  isLocked w = false ->
  snd (updateSessionRecordOnSecondary attempts rec w) = Thrown Location40527 /\
  session (fst (updateSessionRecordOnSecondary attempts rec w)) = session w /\
  storage (fst (updateSessionRecordOnSecondary attempts rec w)) = storage w.
Proof.
  intros Hmissing Hlock.
  assert (Hattempt :
            exists w', updateSessionRecordOnSecondary_attempt rec w
                       = (w', Thrown Location40527)
                       /\ session w' = session w /\ storage w' = storage w).
  { unfold updateSessionRecordOnSecondary_attempt.
    unfold bind, modify, WriteUnitOfWork_begin. simpl.
    rewrite updateSessionEntry_missing by (simpl; exact Hmissing).
    simpl. eexists. split; [reflexivity | split; reflexivity]. }
  destruct Hattempt as [w' [Hrun [Hsession Hstorage]]].
  unfold updateSessionRecordOnSecondary, bind, gets, invariant.
  rewrite Hlock. simpl.
  destruct attempts; simpl; rewrite Hrun; simpl; split; auto.
Qed.

(** C8, as the code has it.  A missing table is reported by throwing
    error 40527 from the code that writes to it: [updateSessionEntry], and
    through it [onWriteOpCompletedOnPrimary] and
    [updateSessionRecordOnSecondary], which does not retry it.
    [refreshFromStorageIfNeeded] has no check of the table of its own:
    when it returns normally the cache is valid, an exception that ends it
    is one that its lookup threw, and when the lookup of an undisturbed
    iteration returns, it returns normally with the cache holding what
    the lookup gave, no record when it gave none. *)
Theorem missing_table_reported_by_writes :
  (forall w req,
      getCollection (storage w) = false ->
      updateSessionEntry req w = (w, Thrown Location40527)) /\
  (forall w n stmts ts,
      getCollection (storage w) = false ->
      isSome (writeUnitOfWork w) = true ->
      _isValid (session w) = true ->
      n = _activeTxnNumber (session w) ->
      onWriteOpCompletedOnPrimary n stmts ts w = (w, Thrown Location40527)) /\
  (forall w attempts rec,
      getCollection (storage w) = false ->
      isLocked w = false ->
      snd (updateSessionRecordOnSecondary attempts rec w) = Thrown Location40527 /\
      session (fst (updateSessionRecordOnSecondary attempts rec w)) = session w /\
      storage (fst (updateSessionRecordOnSecondary attempts rec w)) = storage w) /\
  (forall windows w w' r,
      isLocked w = false ->
      readConcernLevel w = kLocalReadConcern ->
      refreshFromStorageIfNeeded windows w = Some (w', r) ->
      (r = Returned tt -> _isValid (session w') = true) /\
      (forall c, r = Thrown c ->
                 exists db sessionId, lookupTxnRecord db sessionId = Thrown c)) /\
  (forall w row,
      isLocked w = false ->
      readConcernLevel w = kLocalReadConcern ->
      _isValid (session w) = false ->
      lookupTxnRecord (storage w) (_sessionId (session w)) = Returned row ->
      refreshFromStorageIfNeeded [quiet] w =
      Some (worldWithCache (installed row (session w)) w, Returned tt)).
Proof.
  split; [ | split; [ | split; [ | split ]]].
  - exact updateSessionEntry_missing.
  - exact onWriteOpCompletedOnPrimary_missing.
  - exact updateSessionRecordOnSecondary_missing.
  - intros windows w w' r Hlock Hlevel. unfold refreshFromStorageIfNeeded.
    rewrite Hlock, Hlevel. simpl. intros Hloop. split.
    + intros Hr. subst r. exact (refreshLoop_valid windows w w' Hloop).
    + intros c Hr. subst r. exact (refreshLoop_throws_from_lookup windows w w' c Hloop).
  - exact refreshFromStorageIfNeeded_quiet.
Qed.

End MissingTable.

Lemma missing_table_reported_by_writes_witness :
  let req := mkUpdateRequest true (BSON_sessionId 1%N) (BSON_record record_5_100) in
  let w := InMemory.world cache_at_5 store_missing (Some store_missing) in
  let w0 := InMemory.world cache_invalid store_missing None in
  let w1 := InMemory.world (mkSession 1%N true 0 None (-1)) store_missing None in
  updateSessionEntry req w = (w, Thrown Location40527) /\
  onWriteOpCompletedOnPrimary 5 [0] 100%N w = (w, Thrown Location40527) /\
  (snd (updateSessionRecordOnSecondary 3 record_5_100 w0) = Thrown Location40527 /\
   session (fst (updateSessionRecordOnSecondary 3 record_5_100 w0)) = session w0 /\
   storage (fst (updateSessionRecordOnSecondary 3 record_5_100 w0)) = storage w0) /\
  _isValid (session w1) = true /\
  refreshFromStorageIfNeeded [quiet] w0 = Some (w1, Returned tt).
Proof.
  pose proof (@missing_table_reported_by_writes InMemory.collaborators)
    as [Hentry [Hprimary [Hsecondary [Hrefresh Hquiet]]]].
  split; [ | split; [ | split; [ | split ]]].
  - apply Hentry. reflexivity.
  - apply Hprimary; reflexivity.
  - apply Hsecondary; reflexivity.
  - apply (proj1 (Hrefresh [quiet]
                    (InMemory.world cache_invalid store_missing None)
                    (InMemory.world (mkSession 1%N true 0 None (-1)) store_missing None)
                    (Returned tt) eq_refl eq_refl eq_refl)).
    reflexivity.
  - exact (Hquiet (InMemory.world cache_invalid store_missing None) None
             eq_refl eq_refl eq_refl eq_refl).
Defined.

(** The statement of C8 about refresh fails on a store whose lookup in a
    missing table finds no row: an undisturbed refresh of an invalid
    cache returns normally and leaves the cache valid with no record. *)
Lemma refresh_succeeds_on_missing_table :
  let w := InMemory.world cache_invalid store_missing None in
  getCollection (storage w) = false /\
  refreshFromStorageIfNeeded [quiet] w =
  Some (InMemory.world (mkSession 1%N true 0 None (-1)) store_missing None,
        Returned tt) /\
  (forall w', refreshFromStorageIfNeeded [quiet] w <> Some (w', Thrown Location40527)).
Proof.
  assert (Hrun : refreshFromStorageIfNeeded [quiet]
                   (InMemory.world cache_invalid store_missing None) =
                 Some (InMemory.world (mkSession 1%N true 0 None (-1)) store_missing None,
                       Returned tt)) by reflexivity.
  split; [reflexivity | split; [exact Hrun | ]].
  intros w' Heq. rewrite Hrun in Heq. inversion Heq.
Qed.

(** ** Statement lookup *)

Lemma walkHistory_all_ids (entries : list OplogEntry.t) (stmtId : StmtId) :
  Forall hasStatementId entries ->
  walkHistory entries stmtId = Returned (find (isStatement stmtId) entries).
Proof.
  induction 1 as [ | e rest He _ IH]; simpl.
  - reflexivity.
  - unfold isStatement, hasStatementId in *.
    destruct (OplogEntry.getStatementId e) as [id | ]; [ | contradiction].
    destruct (id =? stmtId); [reflexivity | exact IH].
Qed.

Lemma walkHistory_aborts (pre post : list OplogEntry.t) (e : OplogEntry.t)
    (stmtId : StmtId) :
  Forall (fun x => hasStatementId x /\ isStatement stmtId x = false) pre ->
  OplogEntry.getStatementId e = None ->
  walkHistory (pre ++ e :: post) stmtId = Aborted.
Proof.
  intros Hpre He. induction Hpre as [ | x pre [Hx Hne] _ IH]; simpl.
  - rewrite He. reflexivity.
  - unfold isStatement, hasStatementId in *.
    destruct (OplogEntry.getStatementId x) as [id | ]; [ | contradiction].
    rewrite Hne. exact IH.
Qed.

Lemma walkHistory_not_found (entries : list OplogEntry.t) (stmtId : StmtId) :
  walkHistory entries stmtId = Returned None ->
  Forall (fun x => hasStatementId x /\ isStatement stmtId x = false) entries.
Proof.
  induction entries as [ | e rest IH]; simpl; intros Hwalk.
  - constructor.
  - unfold isStatement, hasStatementId in *.
    destruct (OplogEntry.getStatementId e) as [id | ] eqn:He; [ | discriminate].
    destruct (id =? stmtId) eqn:Hid; [discriminate | ].
    constructor; [ | exact (IH Hwalk)].
    rewrite He, Hid. split; [discriminate | reflexivity].
Qed.

Section StatementLookup.
Context `{Collaborators}.

Lemma checkStatementExecuted_walks (w : World) (n : TxnNumber) (stmtId : StmtId)
    (r : SessionTxnRecord.t) :
  _isValid (session w) = true ->
  n = _activeTxnNumber (session w) ->
  _lastWrittenSessionRecord (session w) = Some r ->
  SessionTxnRecord.getTxnNum r = n ->
  checkStatementExecuted n stmtId w =
  (w, walkHistory (oplogChain (storage w) (SessionTxnRecord.getLastWriteOpTimeTs r))
                  stmtId).
Proof.
  intros Hvalid Hactive Hrec Htxn.
  unfold checkStatementExecuted, withMutex.
  destruct w as [s db locked u level cs ended fp]. simpl in *.
  destruct s as [sid valid k rec active]. simpl in *. subst valid rec active.
  run_cache. rewrite Htxn, Z.eqb_refl. reflexivity.
Qed.

(** C10.  For a valid cache holding a record of the active transaction,
    the walk is over the chain that starts at the cached write position.
    When every entry of the chain has a statement id the call returns the
    first entry with the wanted id, or none, and never fails the
    assertion.  When the walk reaches an entry without a statement id the
    call fails the assertion.  A result of not-found is only given when
    every entry of the chain had a statement id. *)
Theorem checkStatementExecuted_statement_ids :
  (forall w n stmtId r,
      _isValid (session w) = true ->
      n = _activeTxnNumber (session w) ->
      _lastWrittenSessionRecord (session w) = Some r ->
      SessionTxnRecord.getTxnNum r = n ->
      Forall hasStatementId
             (oplogChain (storage w) (SessionTxnRecord.getLastWriteOpTimeTs r)) ->
      checkStatementExecuted n stmtId w =
      (w, Returned (find (isStatement stmtId)
                         (oplogChain (storage w)
                                     (SessionTxnRecord.getLastWriteOpTimeTs r))))) /\
  (forall w n stmtId r pre e post,
      _isValid (session w) = true ->
      n = _activeTxnNumber (session w) ->
      _lastWrittenSessionRecord (session w) = Some r ->
      SessionTxnRecord.getTxnNum r = n ->
      oplogChain (storage w) (SessionTxnRecord.getLastWriteOpTimeTs r)
      = pre ++ e :: post ->
      Forall (fun x => hasStatementId x /\ isStatement stmtId x = false) pre ->
      OplogEntry.getStatementId e = None ->
      checkStatementExecuted n stmtId w = (w, Aborted)) /\
  (forall w n stmtId r,
      _isValid (session w) = true ->
      n = _activeTxnNumber (session w) ->
      _lastWrittenSessionRecord (session w) = Some r ->
      SessionTxnRecord.getTxnNum r = n ->
      snd (checkStatementExecuted n stmtId w) = Returned None ->
      Forall hasStatementId
             (oplogChain (storage w) (SessionTxnRecord.getLastWriteOpTimeTs r))).
Proof.
  split; [ | split].
  - intros w n stmtId r Hvalid Hactive Hrec Htxn Hids.
    rewrite (checkStatementExecuted_walks w n stmtId r) by assumption.
    rewrite walkHistory_all_ids by exact Hids. reflexivity.
  - intros w n stmtId r pre e post Hvalid Hactive Hrec Htxn Hchain Hpre He.
    rewrite (checkStatementExecuted_walks w n stmtId r) by assumption.
    rewrite Hchain, walkHistory_aborts by assumption. reflexivity.
  - intros w n stmtId r Hvalid Hactive Hrec Htxn.
    rewrite (checkStatementExecuted_walks w n stmtId r) by assumption.
    simpl. intros Hwalk. apply walkHistory_not_found in Hwalk.
    eapply Forall_impl; [ | exact Hwalk]. intros x [Hx _]. exact Hx.
Qed.

End StatementLookup.

Lemma checkStatementExecuted_statement_ids_witness :
  let w := InMemory.world cache_5_100 store_logged None in
  let wbad := InMemory.world cache_5_100 store_logged_bad None in
  checkStatementExecuted 5 1 w = (w, Returned (Some entry_stmt1)) /\
  checkStatementExecuted 5 0 wbad = (wbad, Aborted) /\
  Forall hasStatementId [entry_stmt2; entry_stmt1; entry_stmt0].
Proof.
  pose proof (@checkStatementExecuted_statement_ids InMemory.collaborators)
    as [Hfound [Haborts Hnone]].
  assert (Hids : Forall hasStatementId [entry_stmt2; entry_stmt1; entry_stmt0]).
  { repeat constructor; discriminate. }
  split; [ | split].
  - exact (Hfound (InMemory.world cache_5_100 store_logged None) 5 1 record_5_100
                  eq_refl eq_refl eq_refl eq_refl Hids).
  - apply (Haborts (InMemory.world cache_5_100 store_logged_bad None) 5 0 record_5_100
                   [entry_stmt2; entry_stmt1] entry_no_stmt [entry_stmt0]);
      try reflexivity.
    repeat constructor; discriminate.
  - exact (Hnone (InMemory.world cache_5_100 store_logged None) 5 7 record_5_100
                 eq_refl eq_refl eq_refl eq_refl eq_refl).
Defined.

(** ** Worked scenarios *)

(** Scenario A: a fresh cache over an empty table is refreshed, admits
    transaction 5, records a write at position 100 inside a unit of work
    that commits, and then reports position 100. *)
Example scenario_A :
  let w0 := InMemory.world (@Session_ctor InMemory.collaborators 1%N) store_empty None in
  exists w1 w2 w3 w4 w5,
    refreshFromStorageIfNeeded [quiet] w0 = Some (w1, Returned tt) /\
    beginTxn 5 w1 = (w2, Returned tt) /\
    WriteUnitOfWork_begin w2 = (w3, Returned tt) /\
    onWriteOpCompletedOnPrimary 5 [0] 100%N w3 = (w4, Returned tt) /\
    WriteUnitOfWork_commit w4 = (w5, Returned tt) /\
    getLastWriteOpTimeTs 5 (session w5) = (session w5, Returned 100%N) /\
    getLastWriteOpTimeTs 5 (session w4) = (session w4, Returned Timestamp_null).
Proof.
  do 5 eexists. repeat split; vm_compute; reflexivity.
Qed.

(** A statement logged before an entry without a statement id is found
    without the walk ever reaching that entry. *)
Example found_before_entry_without_id :
  let wbad := InMemory.world cache_5_100 store_logged_bad None in
  checkStatementExecuted 5 1 wbad = (wbad, Returned (Some entry_stmt1)).
Proof. reflexivity. Qed.

Section RefreshReachability.
Context `{Collaborators}.

Lemma reachable_interfere (sessionId : LogicalSessionId) (w : World)
    (i : Interference) :
  reachable sessionId (session w) -> reachable sessionId (session (interfere w i)).
Proof.
  intros Hw. destruct i as [ | n | c | k row | db]; unfold interfere;
    try rewrite session_withMutex.
  - exact (reachable_step sessionId _ _ Hw (step_invalidate _)).
  - exact (reachable_step sessionId _ _ Hw (step_beginTxn n _)).
  - exact (reachable_step sessionId _ _ Hw (step_commit _ _ _ _)).
  - exact (reachable_step sessionId _ _ Hw (step_refresh k row _)).
  - exact Hw.
Qed.

Lemma reachable_fold (sessionId : LogicalSessionId) (l : list Interference)
    (w : World) :
  reachable sessionId (session w) ->
  reachable sessionId (session (fold_left interfere l w)).
Proof.
  revert w. induction l as [ | i l IH]; intros w Hw; simpl.
  - exact Hw.
  - apply IH. apply reachable_interfere. exact Hw.
Qed.

(** The refresh loop, with whatever falls into its windows, only moves
    the cache through reachable states. *)
Lemma reachable_refreshLoop (sessionId : LogicalSessionId) (windows : list Window)
    (w w' : World) (r : Outcome unit) :
  reachable sessionId (session w) ->
  refreshLoop windows w = Some (w', r) ->
  reachable sessionId (session w').
Proof.
  revert w. induction windows as [ | win rest IH]; intros w Hw; simpl.
  - destruct (_isValid (session w)); [ | discriminate].
    intros Heq; inversion Heq; subst w'. exact Hw.
  - destruct (_isValid (session w)).
    + intros Heq; inversion Heq; subst w'. exact Hw.
    + assert (Hiter : reachable sessionId (session (fst (refreshIteration win w)))).
      { unfold refreshIteration.
        destruct (lookupTxnRecord _ _) as [row | c | ].
        - rewrite session_withMutex.
          eapply reachable_step; [ | apply step_refresh].
          apply reachable_fold, reachable_fold. exact Hw.
        - apply reachable_fold. exact Hw.
        - apply reachable_fold. exact Hw. }
      destruct (refreshIteration win w) as [w1 [[ | ] | c | ]]; simpl in Hiter.
      * intros Heq; inversion Heq; subst w'. exact Hiter.
      * apply IH. exact Hiter.
      * intros Heq; inversion Heq; subst w'. exact Hiter.
      * intros Heq; inversion Heq; subst w'. exact Hiter.
Qed.

End RefreshReachability.

(** * Further properties of the code *)

(** ** Admission and the commit handler *)

Lemma activeTxnNumber_beginTxn (n : TxnNumber) (s : Session) :
  _isValid s = true ->
  _activeTxnNumber (fst (_beginTxn n s)) = Z.max (_activeTxnNumber s) n /\
  _isValid (fst (_beginTxn n s)) = true /\
  _lastWrittenSessionRecord (fst (_beginTxn n s)) = _lastWrittenSessionRecord s.
Proof.
  intros Hvalid. rewrite _beginTxn_state, Hvalid. simpl.
  destruct (_activeTxnNumber s <? n) eqn:Hlt; bool_to_prop; simpl.
  - repeat split; [lia | exact Hvalid].
  - repeat split; [lia | exact Hvalid].
Qed.

(** X2. On a valid cache a sequence of admissions, failed ones included,
    leaves the active number at the maximum of the old active number and
    all requested numbers; the cache stays valid and the cached record is
    not touched. *)
Theorem admitAll_reaches_maximum (ns : list TxnNumber) (s : Session) :
  _isValid s = true ->
  _activeTxnNumber (admitAll ns s) = fold_left Z.max ns (_activeTxnNumber s) /\
  _isValid (admitAll ns s) = true /\
  _lastWrittenSessionRecord (admitAll ns s) = _lastWrittenSessionRecord s.
Proof.
  revert s. induction ns as [ | n ns IH]; intros s Hvalid.
  - repeat split. exact Hvalid.
  - destruct (activeTxnNumber_beginTxn n s Hvalid) as [Hactive [Hvalid' Hrec]].
    unfold admitAll in *. simpl.
    destruct (IH (fst (_beginTxn n s)) Hvalid') as [IHactive [IHvalid IHrec]].
    rewrite IHactive, IHrec, Hactive, Hrec. repeat split. exact IHvalid.
Qed.

Lemma admitAll_reaches_maximum_witness :
  _activeTxnNumber (admitAll [3; 8; 6] cache_at_5) = 8 /\
  _isValid (admitAll [3; 8; 6] cache_at_5) = true /\
  _lastWrittenSessionRecord (admitAll [3; 8; 6] cache_at_5) = None.
Proof.
  exact (admitAll_reaches_maximum [3; 8; 6] cache_at_5 eq_refl).
Defined.

(** X3. While the cache is valid the active number never goes down: an
    admission and a commit handler leave it at least as large and the
    cache valid, and the locked tail of a refresh does nothing at all. *)
Theorem active_number_monotone_while_valid (s : Session) :
  _isValid s = true ->
  (forall n,
      _activeTxnNumber s <= _activeTxnNumber (fst (_beginTxn n s)) /\
      _isValid (fst (_beginTxn n s)) = true) /\
  (forall n stmts ts,
      _activeTxnNumber s <= _activeTxnNumber (fst (updateCacheOnCommit n stmts ts s)) /\
      _isValid (fst (updateCacheOnCommit n stmts ts s)) = true) /\
  (forall k row, refreshInstall k row s = (s, Returned false)).
Proof.
  intros Hvalid. split; [ | split].
  - intros n. destruct (activeTxnNumber_beginTxn n s Hvalid) as [Hactive [Hvalid' _]].
    rewrite Hactive. split; [lia | exact Hvalid'].
  - intros n stmts ts. rewrite updateCacheOnCommit_closed, Hvalid. simpl.
    destruct (_activeTxnNumber s <=? n) eqn:Hle; simpl.
    + apply Z.leb_le in Hle. split; [exact Hle | reflexivity].
    + split; [lia | exact Hvalid].
  - intros k row. rewrite refreshInstall_closed, Hvalid. reflexivity.
Qed.

Lemma active_number_monotone_while_valid_witness :
  (forall n,
      5 <= _activeTxnNumber (fst (_beginTxn n cache_at_5)) /\
      _isValid (fst (_beginTxn n cache_at_5)) = true) /\
  (forall n stmts ts,
      5 <= _activeTxnNumber (fst (updateCacheOnCommit n stmts ts cache_at_5)) /\
      _isValid (fst (updateCacheOnCommit n stmts ts cache_at_5)) = true) /\
  (forall k row, refreshInstall k row cache_at_5 = (cache_at_5, Returned false)).
Proof.
  exact (active_number_monotone_while_valid cache_at_5 eq_refl).
Defined.

(** X8. The commit handler never throws, although it calls [_beginTxn]:
    its two guards keep both assertions of [_beginTxn] from failing.  It
    changes neither the validity flag, nor the invalidation counter, nor
    the session id. *)
Theorem commit_handler_never_throws (n : TxnNumber) (stmts : list StmtId)
    (ts : Timestamp) (s : Session) :
  snd (updateCacheOnCommit n stmts ts s) = Returned tt /\
  _isValid (fst (updateCacheOnCommit n stmts ts s)) = _isValid s /\
  _numInvalidations (fst (updateCacheOnCommit n stmts ts s)) = _numInvalidations s /\
  _sessionId (fst (updateCacheOnCommit n stmts ts s)) = _sessionId s.
Proof.
  rewrite updateCacheOnCommit_closed.
  destruct (_isValid s) eqn:Hvalid; simpl; [ | repeat split; exact Hvalid].
  destruct (_activeTxnNumber s <=? n); simpl; repeat split; exact Hvalid.
Qed.

Lemma handler_makes_write_visible (n : TxnNumber) (stmts : list StmtId)
    (ts : Timestamp) (s : Session) :
  _isValid s = true -> _activeTxnNumber s <= n -> I2 s ->
  getLastWriteOpTimeTs n (fst (updateCacheOnCommit n stmts ts s)) =
  (fst (updateCacheOnCommit n stmts ts s),
   Returned (N.max (cachedWritePosition s) ts)).
Proof.
  intros Hvalid Hle HI2.
  rewrite updateCacheOnCommit_closed, Hvalid.
  assert (Hleb : (_activeTxnNumber s <=? n) = true) by (apply Z.leb_le; exact Hle).
  rewrite Hleb. simpl.
  unfold I2, cachedWritePosition in *.
  run_cache. rewrite Z.eqb_refl.
  destruct (_lastWrittenSessionRecord s) as [r | ]; simpl.
  - assert (Hmax : (Z.max (SessionTxnRecord.getTxnNum r) n =? n) = true)
      by (apply Z.eqb_eq; lia).
    rewrite Hmax. reflexivity.
  - rewrite Z.eqb_refl. simpl. unfold Timestamp_null.
    rewrite N.max_r by apply N.le_0_l. reflexivity.
Qed.

(** X5. After the commit handler for [n] has run on a valid cache whose
    active number is at most [n] and that satisfies I2,
    [getLastWriteOpTimeTs n] returns the larger of the position cached
    before (null when none was) and the handler's position. *)
Theorem committed_write_is_visible (n : TxnNumber) (stmts : list StmtId)
    (ts : Timestamp) (s : Session) :
  _isValid s = true -> _activeTxnNumber s <= n -> I2 s ->
  getLastWriteOpTimeTs n (fst (updateCacheOnCommit n stmts ts s)) =
  (fst (updateCacheOnCommit n stmts ts s),
   Returned (N.max (cachedWritePosition s) ts)).
Proof.
  intros Hvalid Hle HI2.
  rewrite updateCacheOnCommit_closed, Hvalid.
  apply Z.leb_le in Hle. rewrite Hle. simpl.
  unfold I2, cachedWritePosition in *.
  run_cache. rewrite Z.eqb_refl.
  destruct (_lastWrittenSessionRecord s) as [r | ]; simpl.
  - apply Z.leb_le in Hle.
    replace (Z.max (SessionTxnRecord.getTxnNum r) n) with n by lia.
    rewrite Z.eqb_refl. reflexivity.
  - rewrite Z.eqb_refl. simpl. unfold Timestamp_null.
    rewrite N.max_r by apply N.le_0_l. reflexivity.
Qed.

Lemma committed_write_is_visible_witness :
  getLastWriteOpTimeTs 5 (fst (updateCacheOnCommit 5 [0] 100%N cache_3_over_3)) =
  (fst (updateCacheOnCommit 5 [0] 100%N cache_3_over_3), Returned 100%N).
Proof.
  apply (committed_write_is_visible 5 [0] 100%N cache_3_over_3).
  - reflexivity.
  - simpl. lia.
  - unfold I2. simpl. lia.
Defined.

(** ** Invalidation *)

Lemma beginTxn_admission_cases_invalid (s : Session) (n : TxnNumber) :
  _isValid s = false ->
  _beginTxn n s = (s, Thrown ConflictingOperationInProgress) /\
  getLastWriteOpTimeTs n s = (s, Thrown ConflictingOperationInProgress).
Proof.
  intros Hinvalid. run_cache. rewrite Hinvalid. split; reflexivity.
Qed.


Section Invalidation.
Context `{Collaborators}.

Lemma checkStatementExecuted_closed (n : TxnNumber) (stmtId : StmtId) (w : World) :
  checkStatementExecuted n stmtId w =
  (w,
   if _isValid (session w) then
     if n =? _activeTxnNumber (session w) then
       match _lastWrittenSessionRecord (session w) with
       | None => Returned None
       | Some r =>
           if SessionTxnRecord.getTxnNum r =? n
           then walkHistory
                  (oplogChain (storage w) (SessionTxnRecord.getLastWriteOpTimeTs r))
                  stmtId
           else Returned None
       end
     else Thrown ConflictingOperationInProgress
   else Thrown ConflictingOperationInProgress).
Proof.
  unfold checkStatementExecuted, withMutex.
  destruct w as [s db locked u level cs ended fp]. simpl.
  destruct s as [sid valid k rec active]. run_cache.
  destruct valid; simpl; [ | reflexivity].
  destruct (n =? active); simpl; [ | reflexivity].
  destruct rec as [r | ]; simpl; [ | reflexivity].
  destruct (SessionTxnRecord.getTxnNum r =? n); reflexivity.
Qed.

(** X1. Right after [invalidate], whatever the cache held, an admission,
    [getLastWriteOpTimeTs] and [checkStatementExecuted] all throw
    ConflictingOperationInProgress for every transaction number, and a
    commit handler that runs then leaves the cache as it is. *)
Theorem invalidate_forces_reload (w : World) (n : TxnNumber) (stmtId : StmtId)
    (stmts : list StmtId) (ts : Timestamp) :
  let w' := fst (withMutex invalidate w) in
  _beginTxn n (session w') = (session w', Thrown ConflictingOperationInProgress) /\
  getLastWriteOpTimeTs n (session w')
  = (session w', Thrown ConflictingOperationInProgress) /\
  checkStatementExecuted n stmtId w' = (w', Thrown ConflictingOperationInProgress) /\
  updateCacheOnCommit n stmts ts (session w') = (session w', Returned tt).
Proof.
  intros w'.
  assert (Hinvalid : _isValid (session w') = false).
  { unfold w'. rewrite session_withMutex, invalidate_closed. reflexivity. }
  split; [ | split; [ | split ]].
  - apply (proj1 (beginTxn_admission_cases_invalid (session w') n Hinvalid)).
  - apply (proj2 (beginTxn_admission_cases_invalid (session w') n Hinvalid)).
  - rewrite checkStatementExecuted_closed, Hinvalid. reflexivity.
  - rewrite updateCacheOnCommit_closed, Hinvalid. reflexivity.
Qed.

(** X15. In every reachable cache state the session id is the one given
    to the constructor, and a cache that is not valid holds no record and
    has the uninitialised active number. *)
Theorem invalid_cache_holds_nothing (sessionId : LogicalSessionId) (s : Session) :
  reachable sessionId s ->
  _sessionId s = sessionId /\
  (_isValid s = false ->
   _lastWrittenSessionRecord s = None /\ _activeTxnNumber s = kUninitializedTxnNumber).
Proof.
  induction 1 as [ | s s' _ [IHid IHinv] Hstep].
  - split; [reflexivity | intros _; split; reflexivity].
  - destruct Hstep.
    + rewrite refreshInstall_closed.
      destruct (negb (_isValid s) && (_numInvalidations s =? k)); simpl.
      * split; [exact IHid | discriminate].
      * split; [exact IHid | exact IHinv].
    + rewrite _beginTxn_state.
      destruct (_isValid s) eqn:Hvalid; simpl.
      * destruct (_activeTxnNumber s <? n); simpl;
          (split; [exact IHid | rewrite ?Hvalid; discriminate]).
      * rewrite Hvalid. split; [exact IHid | exact IHinv].
    + rewrite updateCacheOnCommit_closed.
      destruct (_isValid s) eqn:Hvalid; simpl.
      * destruct (_activeTxnNumber s <=? n); simpl;
          (split; [exact IHid | rewrite ?Hvalid; discriminate]).
      * rewrite Hvalid. split; [exact IHid | exact IHinv].
    + rewrite invalidate_closed. simpl.
      split; [exact IHid | intros _; split; reflexivity].
Qed.

(** X7. The race the handler's comment describes: the cache is
    invalidated and refreshed before the storage transaction of a write
    for [n] commits, the refresh loading a row of an older transaction or
    none.  The handler then raises the active number to [n], and
    [getLastWriteOpTimeTs n] returns the larger of the loaded position and
    the write's position. *)
Theorem handler_after_invalidate_and_refresh (s : Session) (n : TxnNumber)
    (stmts : list StmtId) (ts : Timestamp) (row : option SessionTxnRecord.t) :
  match row with
  | Some r => SessionTxnRecord.getTxnNum r <= n
  | None => kUninitializedTxnNumber <= n
  end ->
  let s1 := fst (invalidate s) in
  let s2 := fst (refreshInstall (_numInvalidations s1) row s1) in
  let s3 := fst (updateCacheOnCommit n stmts ts s2) in
  _isValid s3 = true /\
  _activeTxnNumber s3 = n /\
  getLastWriteOpTimeTs n s3 =
  (s3, Returned (N.max (match row with
                        | Some r => SessionTxnRecord.getLastWriteOpTimeTs r
                        | None => Timestamp_null
                        end) ts)).
Proof.
  intros Hrow s1 s2 s3.
  assert (Hs2 : s2 = installed row s1).
  { unfold s2. rewrite refreshInstall_closed. unfold s1.
    rewrite invalidate_closed. simpl. rewrite Z.eqb_refl. reflexivity. }
  assert (Hvalid : _isValid s2 = true) by (rewrite Hs2; reflexivity).
  assert (Hactive : _activeTxnNumber s2 <= n).
  { rewrite Hs2. unfold s1. rewrite invalidate_closed. simpl.
    destruct row; exact Hrow. }
  assert (HI2 : I2 s2).
  { rewrite Hs2. unfold I2. simpl. destruct row; simpl; [lia | exact I]. }
  assert (Hpos : cachedWritePosition s2
                 = match row with
                   | Some r => SessionTxnRecord.getLastWriteOpTimeTs r
                   | None => Timestamp_null
                   end).
  { rewrite Hs2. unfold cachedWritePosition. reflexivity. }
  split; [ | split].
  - unfold s3. rewrite updateCacheOnCommit_closed, Hvalid. simpl.
    destruct (_activeTxnNumber s2 <=? n); [reflexivity | exact Hvalid].
  - unfold s3. rewrite updateCacheOnCommit_closed, Hvalid. simpl.
    apply Z.leb_le in Hactive. rewrite Hactive. reflexivity.
  - pose proof (handler_makes_write_visible n stmts ts s2 Hvalid Hactive HI2)
      as Hvisible.
    rewrite Hpos in Hvisible. exact Hvisible.
Qed.

End Invalidation.

Lemma invalid_cache_holds_nothing_witness :
  let s := fst (@invalidate InMemory.collaborators cache_7_over_3) in
  _sessionId s = 1%N /\
  _lastWrittenSessionRecord s = None /\ _activeTxnNumber s = -1.
Proof.
  pose proof (@invalid_cache_holds_nothing InMemory.collaborators 1%N
                (fst (@invalidate InMemory.collaborators cache_7_over_3))
                (@reachable_step InMemory.collaborators 1%N cache_7_over_3 _
                   cache_7_over_3_reachable
                   (@step_invalidate InMemory.collaborators cache_7_over_3)))
    as [Hid Hinvalid].
  split; [exact Hid | exact (Hinvalid eq_refl)].
Defined.

Lemma handler_after_invalidate_and_refresh_witness :
  let s1 := fst (@invalidate InMemory.collaborators cache_at_5) in
  let s2 := fst (refreshInstall (_numInvalidations s1) (Some record_3_50) s1) in
  let s3 := fst (updateCacheOnCommit 5 [0] 100%N s2) in
  _isValid s3 = true /\
  _activeTxnNumber s3 = 5 /\
  getLastWriteOpTimeTs 5 s3 = (s3, Returned 100%N).
Proof.
  apply (@handler_after_invalidate_and_refresh InMemory.collaborators
           cache_at_5 5 [0] 100%N (Some record_3_50)).
  simpl. lia.
Defined.

(** ** Statement lookup, further *)

Lemma walkHistory_found (entries : list OplogEntry.t) (stmtId : StmtId)
    (e : OplogEntry.t) :
  walkHistory entries stmtId = Returned (Some e) ->
  OplogEntry.getStatementId e = Some stmtId /\ In e entries.
Proof.
  induction entries as [ | x rest IH]; simpl; intros Hwalk.
  - discriminate.
  - destruct (OplogEntry.getStatementId x) as [id | ] eqn:Hx; [ | discriminate].
    destruct (id =? stmtId) eqn:Hid.
    + inversion Hwalk; subst x. apply Z.eqb_eq in Hid. subst id.
      split; [exact Hx | left; reflexivity].
    + destruct (IH Hwalk) as [He Hin]. split; [exact He | right; exact Hin].
Qed.

Section StatementLookupFurther.
Context `{Collaborators}.

(** X12. [checkStatementExecuted] changes nothing, whatever its outcome.
    It throws ConflictingOperationInProgress when the cache is invalid or
    the number is not the active one, and it answers not-found without
    reading the log when no record is cached or the cached record is of
    another transaction. *)
Theorem checkStatementExecuted_read_only :
  (forall w n stmtId, fst (checkStatementExecuted n stmtId w) = w) /\
  (forall w n stmtId,
      _isValid (session w) = false \/ n <> _activeTxnNumber (session w) ->
      checkStatementExecuted n stmtId w = (w, Thrown ConflictingOperationInProgress)) /\
  (forall w n stmtId,
      _isValid (session w) = true ->
      n = _activeTxnNumber (session w) ->
      match _lastWrittenSessionRecord (session w) with
      | Some r => SessionTxnRecord.getTxnNum r <> n
      | None => True
      end ->
      checkStatementExecuted n stmtId w = (w, Returned None)).
Proof.
  split; [ | split].
  - intros w n stmtId. rewrite checkStatementExecuted_closed. reflexivity.
  - intros w n stmtId Hguard. rewrite checkStatementExecuted_closed.
    destruct Hguard as [Hinvalid | Hne].
    + rewrite Hinvalid. reflexivity.
    + destruct (_isValid (session w)); [ | reflexivity].
      destruct (n =? _activeTxnNumber (session w)) eqn:Heq; bool_to_prop;
        [contradiction | reflexivity].
  - intros w n stmtId Hvalid Hactive Hrec. rewrite checkStatementExecuted_closed.
    rewrite Hvalid, <- Hactive, Z.eqb_refl.
    destruct (_lastWrittenSessionRecord (session w)) as [r | ]; [ | reflexivity].
    destruct (SessionTxnRecord.getTxnNum r =? n) eqn:Heq; bool_to_prop;
      [contradiction | reflexivity].
Qed.

(** X16. An entry that [checkStatementExecuted] returns carries the
    requested statement id and belongs to the chain that starts at the
    write position of the cached record, which is of the requested
    transaction. *)
Theorem checkStatementExecuted_found_is_right (w : World) (n : TxnNumber)
    (stmtId : StmtId) (e : OplogEntry.t) :
  snd (checkStatementExecuted n stmtId w) = Returned (Some e) ->
  OplogEntry.getStatementId e = Some stmtId /\
  exists r,
    _lastWrittenSessionRecord (session w) = Some r /\
    SessionTxnRecord.getTxnNum r = n /\
    In e (oplogChain (storage w) (SessionTxnRecord.getLastWriteOpTimeTs r)).
Proof.
  rewrite checkStatementExecuted_closed. simpl.
  destruct (_isValid (session w)); [ | discriminate].
  destruct (n =? _activeTxnNumber (session w)); [ | discriminate].
  destruct (_lastWrittenSessionRecord (session w)) as [r | ]; [ | discriminate].
  destruct (SessionTxnRecord.getTxnNum r =? n) eqn:Htxn; [ | discriminate].
  intros Hwalk. apply walkHistory_found in Hwalk. destruct Hwalk as [He Hin].
  split; [exact He | ]. exists r. apply Z.eqb_eq in Htxn. auto.
Qed.

End StatementLookupFurther.

Lemma checkStatementExecuted_read_only_witness :
  let winv := InMemory.world cache_invalid store_logged None in
  let wother := InMemory.world cache_wrong_owner store_logged None in
  checkStatementExecuted 5 1 winv = (winv, Thrown ConflictingOperationInProgress) /\
  checkStatementExecuted 5 1 wother = (wother, Returned None).
Proof.
  pose proof (@checkStatementExecuted_read_only InMemory.collaborators)
    as [_ [Hthrows Hnone]].
  split.
  - apply Hthrows. left. reflexivity.
  - apply Hnone; [reflexivity | reflexivity | simpl; lia].
Defined.

Lemma checkStatementExecuted_found_is_right_witness :
  OplogEntry.getStatementId entry_stmt1 = Some 1 /\
  exists r,
    _lastWrittenSessionRecord cache_5_100 = Some r /\
    SessionTxnRecord.getTxnNum r = 5 /\
    In entry_stmt1
       (InMemory.chainFrom store_logged (SessionTxnRecord.getLastWriteOpTimeTs r)).
Proof.
  exact (@checkStatementExecuted_found_is_right InMemory.collaborators
           (InMemory.world cache_5_100 store_logged None) 5 1 entry_stmt1 eq_refl).
Defined.

(** ** Write completion, further *)

Section WriteCompletionFurther.
Context `{Collaborators}.

(** X4. [updateSessionEntry] returns normally exactly when the table
    exists and the update returned reporting a modified document or an
    upserted id. *)
Theorem updateSessionEntry_returns_iff (w : World) (req : UpdateRequest) :
  snd (updateSessionEntry req w) = Returned tt <->
  getCollection (storage w) = true /\
  exists db' res,
    update (storage w) req = (db', Returned res) /\
    (numDocsModified res <> 0 \/ upserted res <> None).
Proof.
  unfold updateSessionEntry, runUpdate, bind, gets, uassert, throw, ret.
  destruct (getCollection (storage w)); simpl.
  - destruct (update (storage w) req) as [db' [res | c | ]] eqn:Hupdate; simpl.
    + destruct (numDocsModified res =? 0) eqn:Hmod; bool_to_prop; simpl.
      * destruct (upserted res) as [id | ] eqn:Hups; simpl.
        -- split; [intros _ | reflexivity].
           split; [reflexivity | ]. exists db', res.
           split; [reflexivity | right; rewrite Hups; discriminate].
        -- split; [discriminate | ].
           intros [_ [db1 [res1 [Heq [Hne | Hne]]]]];
             inversion Heq; subst; congruence.
      * split; [intros _ | reflexivity].
        split; [reflexivity | ]. exists db', res.
        split; [reflexivity | left; exact Hmod].
    + split; [discriminate | intros [_ [db1 [res1 [Heq _]]]]; discriminate].
    + split; [discriminate | intros [_ [db1 [res1 [Heq _]]]]; discriminate].
  - split; [discriminate | intros [Hfalse _]; discriminate].
Qed.

(** X13. [onWriteOpCompletedOnPrimary] checks the caller and the cache
    before it touches the table: outside a write unit of work the
    invariant fails, and on an invalid cache or for a number that is not
    the active one it throws ConflictingOperationInProgress; in both cases
    nothing is written and no handler is registered. *)
Theorem onWriteOpCompletedOnPrimary_checks_first :
  (forall w n stmts ts,
      writeUnitOfWork w = None ->
      onWriteOpCompletedOnPrimary n stmts ts w = (w, Aborted)) /\
  (forall w n stmts ts,
      isSome (writeUnitOfWork w) = true ->
      _isValid (session w) = false \/ n <> _activeTxnNumber (session w) ->
      onWriteOpCompletedOnPrimary n stmts ts w
      = (w, Thrown ConflictingOperationInProgress)).
Proof.
  split.
  - intros w n stmts ts Hunit.
    unfold onWriteOpCompletedOnPrimary, bind, gets, invariant.
    rewrite Hunit. reflexivity.
  - intros w n stmts ts Hunit Hguard.
    unfold onWriteOpCompletedOnPrimary, withMutex.
    unfold bind at 1 2 3. unfold gets at 1, invariant. rewrite Hunit.
    destruct w as [s db locked u level cs ended fp]. simpl in *.
    destruct s as [sid valid k rec active]. simpl in *. run_cache.
    destruct Hguard as [Hinvalid | Hne].
    + subst valid. reflexivity.
    + destruct valid; [ | reflexivity]. simpl.
      destruct (n =? active) eqn:Heq; bool_to_prop; [contradiction | reflexivity].
Qed.

Lemma onWriteOpCompletedOnPrimary_reaches_registration (w : World) (n : TxnNumber)
    (stmts : list StmtId) (ts : Timestamp) (req : UpdateRequest)
    (db' : Storage) (res : UpdateResult) :
  isSome (writeUnitOfWork w) = true ->
  _isValid (session w) = true ->
  n = _activeTxnNumber (session w) ->
  getCollection (storage w) = true ->
  snd (_makeUpdateRequest n ts (session w)) = Returned req ->
  update (storage w) req = (db', Returned res) ->
  numDocsModified res <> 0 \/ upserted res <> None ->
  onWriteOpCompletedOnPrimary n stmts ts w
  = _registerUpdateCacheOnCommit n stmts ts (set_storage db' w).
Proof.
  intros Hunit Hvalid Hactive Hcoll Hreq Hupdate Hchanged.
  assert (Hcond : (numDocsModified res =? 0) && negb (isSome (upserted res)) = false).
  { destruct Hchanged as [Hmod | Hups].
    - apply Z.eqb_neq in Hmod. rewrite Hmod. reflexivity.
    - destruct (upserted res); [apply andb_false_r | contradiction]. }
  unfold onWriteOpCompletedOnPrimary, updateSessionEntry, runUpdate, withMutex.
  destruct w as [s db locked u level cs ended fp]. simpl in *.
  destruct s as [sid valid k rec active]. simpl in *. subst valid n.
  revert Hreq. run_cache. rewrite Hunit, Z.eqb_refl. simpl.
  destruct rec as [r | ]; simpl; intros Hreq; inversion Hreq; subst req;
    simpl; rewrite Hcoll; simpl; rewrite Hupdate; simpl;
    rewrite Hcond; reflexivity.
Qed.

(** X6. With the fail point off, a call that passes the checks and whose
    upsert changed or inserted a row returns normally: the table is as
    the update left it, exactly one handler, carrying the call's number,
    statement ids and position, is appended after the handlers already
    registered, and nothing else changes. *)
Theorem onWriteOpCompletedOnPrimary_registers_one_handler (w : World)
    (n : TxnNumber) (stmts : list StmtId) (ts : Timestamp) (req : UpdateRequest)
    (db' : Storage) (res : UpdateResult) :
  isSome (writeUnitOfWork w) = true ->
  _isValid (session w) = true ->
  n = _activeTxnNumber (session w) ->
  getCollection (storage w) = true ->
  snd (_makeUpdateRequest n ts (session w)) = Returned req ->
  update (storage w) req = (db', Returned res) ->
  numDocsModified res <> 0 \/ upserted res <> None ->
  onPrimaryTransactionalWrite w = None ->
  onWriteOpCompletedOnPrimary n stmts ts w =
  (mkWorld (session w) db' (isLocked w) (writeUnitOfWork w) (readConcernLevel w)
           (changes w ++ [mkChange n stmts ts]) (transportSessionEnded w)
           (onPrimaryTransactionalWrite w),
   Returned tt) /\
  changes (fst (onWriteOpCompletedOnPrimary n stmts ts w))
  = changes w ++ [mkChange n stmts ts] /\
  storage (fst (onWriteOpCompletedOnPrimary n stmts ts w)) = db'.
Proof.
  intros Hunit Hvalid Hactive Hcoll Hreq Hupdate Hchanged Hfp.
  rewrite (onWriteOpCompletedOnPrimary_reaches_registration
             w n stmts ts req db' res) by assumption.
  unfold _registerUpdateCacheOnCommit, bind, modify, gets, ret. simpl.
  rewrite Hfp. unfold set_changes, set_storage. simpl. rewrite ?Hfp.
  split; [reflexivity | split; reflexivity].
Qed.

(** X9. With the fail point on, a call that passes the checks and whose
    upsert changed or inserted a row has written the table and appended
    its handler whatever the fail point's arguments are, and the cache is
    not changed.  The transport session is ended when [closeConnection] is
    absent or true and not when it is false; when it is of another type,
    what [Bool()] throws leaves the call.  Otherwise the call throws the
    code that [failBeforeCommitExceptionCode] converts to when that field
    is present, and returns normally when it is absent. *)
Theorem onWriteOpCompletedOnPrimary_fail_point (w : World)
    (n : TxnNumber) (stmts : list StmtId) (ts : Timestamp) (req : UpdateRequest)
    (db' : Storage) (res : UpdateResult) (data : FailPointData) :
  isSome (writeUnitOfWork w) = true ->
  _isValid (session w) = true ->
  n = _activeTxnNumber (session w) ->
  getCollection (storage w) = true ->
  snd (_makeUpdateRequest n ts (session w)) = Returned req ->
  update (storage w) req = (db', Returned res) ->
  numDocsModified res <> 0 \/ upserted res <> None ->
  onPrimaryTransactionalWrite w = Some data ->
  (session (fst (onWriteOpCompletedOnPrimary n stmts ts w)) = session w /\
   storage (fst (onWriteOpCompletedOnPrimary n stmts ts w)) = db' /\
   changes (fst (onWriteOpCompletedOnPrimary n stmts ts w))
   = changes w ++ [mkChange n stmts ts]) /\
  (BSONElement_eoo (closeConnection data) = true \/
   BSONElement_Bool (closeConnection data) = Returned true ->
   transportSessionEnded (fst (onWriteOpCompletedOnPrimary n stmts ts w)) = true) /\
  (BSONElement_eoo (closeConnection data) = false ->
   BSONElement_Bool (closeConnection data) = Returned false ->
   transportSessionEnded (fst (onWriteOpCompletedOnPrimary n stmts ts w))
   = transportSessionEnded w) /\
  (forall c,
      BSONElement_eoo (closeConnection data) = false ->
      BSONElement_Bool (closeConnection data) = Thrown c ->
      snd (onWriteOpCompletedOnPrimary n stmts ts w) = Thrown c /\
      transportSessionEnded (fst (onWriteOpCompletedOnPrimary n stmts ts w))
      = transportSessionEnded w) /\
  (forall code,
      (BSONElement_eoo (closeConnection data) = true \/
       exists b, BSONElement_Bool (closeConnection data) = Returned b) ->
      BSONElement_eoo (failBeforeCommitExceptionCode data) = false ->
      BSONElement_NumberAsInt (failBeforeCommitExceptionCode data) = Returned code ->
      snd (onWriteOpCompletedOnPrimary n stmts ts w)
      = Thrown (ErrorCodes_fromInt code)) /\
  ((BSONElement_eoo (closeConnection data) = true \/
    exists b, BSONElement_Bool (closeConnection data) = Returned b) ->
   BSONElement_eoo (failBeforeCommitExceptionCode data) = true ->
   snd (onWriteOpCompletedOnPrimary n stmts ts w) = Returned tt).
Proof.
  intros Hunit Hvalid Hactive Hcoll Hreq Hupdate Hchanged Hfp.
  rewrite (onWriteOpCompletedOnPrimary_reaches_registration
             w n stmts ts req db' res) by assumption.
  unfold _registerUpdateCacheOnCommit, bind, modify, gets, throw, ret. simpl.
  rewrite Hfp.
  destruct (BSONElement_eoo (closeConnection data)) eqn:Hcc;
    [ | destruct (BSONElement_Bool (closeConnection data)) as [[ | ] | cb | ] eqn:Hb ];
    simpl;
    (destruct (BSONElement_eoo (failBeforeCommitExceptionCode data)) eqn:Hfe;
     [ | destruct (BSONElement_NumberAsInt (failBeforeCommitExceptionCode data))
           as [code' | cn | ] eqn:Hn ]);
    simpl; unfold set_changes, set_storage, set_transportSessionEnded; simpl;
    repeat match goal with
           | |- _ /\ _ => split
           | |- forall _, _ => intro
           | h : _ \/ _ |- _ => destruct h
           | h : exists _, _ |- _ => destruct h
           end;
    try reflexivity; congruence.
Qed.

End WriteCompletionFurther.

Lemma updateSessionEntry_returns_iff_witness :
  snd (updateSessionEntry request_5_100 world_writing) = Returned tt.
Proof.
  apply (proj2 (@updateSessionEntry_returns_iff InMemory.collaborators
                  world_writing request_5_100)).
  split; [reflexivity | ].
  exists store_5_100, (mkUpdateResult 0 (Some 1%N)).
  split; [reflexivity | right; discriminate].
Defined.

Lemma onWriteOpCompletedOnPrimary_checks_first_witness :
  let wout := InMemory.world cache_at_5 store_empty None in
  let winv := InMemory.world cache_invalid store_empty (Some store_empty) in
  onWriteOpCompletedOnPrimary 5 [0] 100%N wout = (wout, Aborted) /\
  onWriteOpCompletedOnPrimary 5 [0] 100%N winv
  = (winv, Thrown ConflictingOperationInProgress) /\
  onWriteOpCompletedOnPrimary 6 [0] 100%N world_writing
  = (world_writing, Thrown ConflictingOperationInProgress).
Proof.
  pose proof (@onWriteOpCompletedOnPrimary_checks_first InMemory.collaborators)
    as [Houtside Hguard].
  split; [ | split].
  - apply Houtside. reflexivity.
  - apply Hguard; [reflexivity | left; reflexivity].
  - apply Hguard; [reflexivity | right; simpl; lia].
Defined.

Lemma onWriteOpCompletedOnPrimary_registers_one_handler_witness :
  onWriteOpCompletedOnPrimary 5 [0] 100%N world_writing =
  (@mkWorld InMemory.collaborators cache_at_5 store_5_100 false (Some store_empty)
            kLocalReadConcern [mkChange 5 [0] 100%N] false None,
   Returned tt) /\
  changes (fst (onWriteOpCompletedOnPrimary 5 [0] 100%N world_writing))
  = [mkChange 5 [0] 100%N] /\
  storage (fst (onWriteOpCompletedOnPrimary 5 [0] 100%N world_writing)) = store_5_100.
Proof.
  apply (@onWriteOpCompletedOnPrimary_registers_one_handler InMemory.collaborators
           world_writing 5 [0] 100%N request_5_100 store_5_100
           (mkUpdateResult 0 (Some 1%N)));
    try reflexivity.
  right. discriminate.
Defined.

Lemma onWriteOpCompletedOnPrimary_fail_point_witness :
  (changes (fst (onWriteOpCompletedOnPrimary 5 [0] 100%N world_failing))
   = [mkChange 5 [0] 100%N] /\
   storage (fst (onWriteOpCompletedOnPrimary 5 [0] 100%N world_failing)) = store_5_100 /\
   session (fst (onWriteOpCompletedOnPrimary 5 [0] 100%N world_failing)) = cache_at_5) /\
  transportSessionEnded (fst (onWriteOpCompletedOnPrimary 5 [0] 100%N world_failing))
  = true /\
  snd (onWriteOpCompletedOnPrimary 5 [0] 100%N world_failing)
  = Thrown (ErrorCodes_fromInt 11601) /\
  transportSessionEnded
    (fst (onWriteOpCompletedOnPrimary 5 [0] 100%N world_failing_quietly)) = false /\
  snd (onWriteOpCompletedOnPrimary 5 [0] 100%N world_failing_quietly) = Returned tt /\
  snd (onWriteOpCompletedOnPrimary 5 [0] 100%N world_failing_mistyped)
  = Thrown (ErrorCodes_fromInt 13111) /\
  transportSessionEnded
    (fst (onWriteOpCompletedOnPrimary 5 [0] 100%N world_failing_mistyped)) = false.
Proof.
  assert (Hchanged : numDocsModified (mkUpdateResult 0 (Some 1%N)) <> 0 \/
                     upserted (mkUpdateResult 0 (Some 1%N)) <> None)
    by (right; discriminate).
  pose proof (@onWriteOpCompletedOnPrimary_fail_point InMemory.collaborators
                world_failing 5 [0] 100%N request_5_100 store_5_100
                (mkUpdateResult 0 (Some 1%N)) fail_with_11601
                eq_refl eq_refl eq_refl eq_refl eq_refl eq_refl Hchanged eq_refl)
    as [[Hsession [Hstorage Hchanges]] [Hended [_ [_ [Hcode _]]]]].
  pose proof (@onWriteOpCompletedOnPrimary_fail_point InMemory.collaborators
                world_failing_quietly 5 [0] 100%N request_5_100 store_5_100
                (mkUpdateResult 0 (Some 1%N)) fail_quietly
                eq_refl eq_refl eq_refl eq_refl eq_refl eq_refl Hchanged eq_refl)
    as [_ [_ [Hkept [_ [_ Hreturns]]]]].
  pose proof (@onWriteOpCompletedOnPrimary_fail_point InMemory.collaborators
                world_failing_mistyped 5 [0] 100%N request_5_100 store_5_100
                (mkUpdateResult 0 (Some 1%N)) fail_mistyped
                eq_refl eq_refl eq_refl eq_refl eq_refl eq_refl Hchanged eq_refl)
    as [_ [_ [_ [Hthrows _]]]].
  split; [ | split; [ | split; [ | split; [ | split ]]]].
  - split; [exact Hchanges | split; [exact Hstorage | exact Hsession]].
  - apply Hended. left. reflexivity.
  - apply (Hcode 11601); [left; reflexivity | reflexivity | reflexivity].
  - apply Hkept; reflexivity.
  - apply Hreturns; [right; exists false; reflexivity | reflexivity].
  - exact (Hthrows (ErrorCodes_fromInt 13111) eq_refl eq_refl).
Defined.

(** ** Refresh, further *)

Section RefreshFurther.
Context `{Collaborators}.

Lemma refreshLoop_aborts_from_lookup (windows : list Window) (w w' : World) :
  refreshLoop windows w = Some (w', Aborted) ->
  exists db sessionId, lookupTxnRecord db sessionId = Aborted.
Proof.
  revert w. induction windows as [ | win rest IH]; intros w; simpl.
  - destruct (_isValid (session w)); discriminate.
  - destruct (_isValid (session w)); [discriminate | ].
    destruct (lookedUp win w) as [row | c' | ] eqn:Hlook.
    + rewrite (refreshIteration_returned win w row Hlook), withMutex_refreshInstall.
      destruct (negb _ && _); [discriminate | apply IH].
    + rewrite (refreshIteration_thrown win w c' Hlook). discriminate.
    + rewrite (refreshIteration_aborted win w Hlook). intros _.
      unfold lookedUp in Hlook. eauto.
Qed.

Lemma refreshLoop_ends_after_quiet (windows : list Window) (w : World) :
  exists w' r, refreshLoop (windows ++ [quiet]) w = Some (w', r).
Proof.
  revert w. induction windows as [ | win rest IH]; intros w.
  - simpl. destruct (_isValid (session w)) eqn:Hvalid; [eauto | ].
    destruct (lookupTxnRecord (storage w) (_sessionId (session w)))
      as [row | c | ] eqn:Hlook.
    + rewrite (refreshIteration_quiet w row Hvalid Hlook). eauto.
    + rewrite (refreshIteration_thrown quiet w c) by exact Hlook. eauto.
    + rewrite (refreshIteration_aborted quiet w) by exact Hlook. eauto.
  - simpl. destruct (_isValid (session w)) eqn:Hvalid; [eauto | ].
    destruct (refreshIteration win w) as [w1 [[ | ] | c | ]]; eauto.
Qed.

(** X10. Called without a lock and under local read concern,
    [refreshFromStorageIfNeeded] ends as soon as one iteration runs
    undisturbed, whatever other threads did in the earlier iterations.
    When it returns normally the cache is valid; the only other way it
    ends is by what a lookup threw.  When no lookup throws, it returns
    normally. *)
Theorem refreshFromStorageIfNeeded_returns (windows : list Window) (w : World) :
  isLocked w = false ->
  readConcernLevel w = kLocalReadConcern ->
  (exists w' r,
      refreshFromStorageIfNeeded (windows ++ [quiet]) w = Some (w', r) /\
      (r = Returned tt -> _isValid (session w') = true) /\
      (forall c, r = Thrown c ->
                 exists db sessionId, lookupTxnRecord db sessionId = Thrown c) /\
      (r = Aborted -> exists db sessionId, lookupTxnRecord db sessionId = Aborted)) /\
  ((forall db sessionId, exists row, lookupTxnRecord db sessionId = Returned row) ->
   exists w',
     refreshFromStorageIfNeeded (windows ++ [quiet]) w = Some (w', Returned tt) /\
     _isValid (session w') = true).
Proof.
  intros Hlock Hlevel. unfold refreshFromStorageIfNeeded.
  rewrite Hlock, Hlevel. simpl.
  destruct (refreshLoop_ends_after_quiet windows w) as [w' [r Hloop]].
  split.
  - exists w', r. split; [exact Hloop | split; [ | split ]].
    + intros Hr. subst r. exact (refreshLoop_valid _ w w' Hloop).
    + intros c Hr. subst r. exact (refreshLoop_throws_from_lookup _ w w' c Hloop).
    + intros Hr. subst r. exact (refreshLoop_aborts_from_lookup _ w w' Hloop).
  - intros Hlookups. destruct r as [[] | c | ].
    + exists w'. split; [exact Hloop | exact (refreshLoop_valid _ w w' Hloop)].
    + destruct (refreshLoop_throws_from_lookup _ w w' c Hloop) as [db [sid Hthrown]].
      destruct (Hlookups db sid) as [row Hrow]. congruence.
    + destruct (refreshLoop_aborts_from_lookup _ w w' Hloop) as [db [sid Haborted]].
      destruct (Hlookups db sid) as [row Hrow]. congruence.
Qed.

Lemma caller_state_interfere (w : World) (i : Interference) :
  isLocked (interfere w i) = isLocked w /\
  readConcernLevel (interfere w i) = readConcernLevel w.
Proof.
  destruct i; unfold interfere, withMutex;
    try (match goal with |- context [let (_, _) := ?m in _] => destruct m end);
    split; reflexivity.
Qed.

Lemma caller_state_fold (l : list Interference) (w : World) :
  isLocked (fold_left interfere l w) = isLocked w /\
  readConcernLevel (fold_left interfere l w) = readConcernLevel w.
Proof.
  revert w. induction l as [ | i l IH]; intros w; simpl.
  - split; reflexivity.
  - destruct (IH (interfere w i)) as [Hl Hr].
    destruct (caller_state_interfere w i) as [Hl' Hr'].
    rewrite Hl, Hr, Hl', Hr'. split; reflexivity.
Qed.

Lemma caller_state_refreshIteration (win : Window) (w : World) :
  isLocked (fst (refreshIteration win w)) = isLocked w /\
  readConcernLevel (fst (refreshIteration win w)) = readConcernLevel w.
Proof.
  destruct (caller_state_fold (afterLookup win)
              (fold_left interfere (beforeLookup win) w)) as [Hl Hr].
  destruct (caller_state_fold (beforeLookup win) w) as [Hl' Hr'].
  unfold refreshIteration.
  destruct (lookupTxnRecord _ _) as [row | c | ]; simpl.
  - unfold withMutex.
    match goal with |- context [let (_, _) := ?m in _] => destruct m end.
    simpl. rewrite Hl, Hr, Hl', Hr'. split; reflexivity.
  - split; assumption.
  - split; assumption.
Qed.

Lemma caller_state_refreshLoop (windows : list Window) (w w' : World)
    (r : Outcome unit) :
  refreshLoop windows w = Some (w', r) ->
  isLocked w' = isLocked w /\ readConcernLevel w' = readConcernLevel w.
Proof.
  revert w. induction windows as [ | win rest IH]; intros w; simpl.
  - destruct (_isValid (session w)); [ | discriminate].
    intros Heq; inversion Heq; subst. split; reflexivity.
  - destruct (_isValid (session w)).
    + intros Heq; inversion Heq; subst. split; reflexivity.
    + pose proof (caller_state_refreshIteration win w) as [Hl Hr].
      destruct (refreshIteration win w) as [w1 [[ | ] | c | ]]; simpl in Hl, Hr;
        intros Heq.
      * inversion Heq; subst. split; assumption.
      * destruct (IH w1 Heq) as [Hl1 Hr1]. rewrite Hl1, Hr1. split; assumption.
      * inversion Heq; subst. split; assumption.
      * inversion Heq; subst. split; assumption.
Qed.

(** X11. Refresh is needed once: a further refresh, started in the state
    in which a refresh returned normally, returns at once and changes
    nothing; it enters no iteration, so it does not read the table
    again. *)
Theorem refreshFromStorageIfNeeded_idempotent (windows windows' : list Window)
    (w w' : World) :
  isLocked w = false ->
  readConcernLevel w = kLocalReadConcern ->
  refreshFromStorageIfNeeded windows w = Some (w', Returned tt) ->
  refreshFromStorageIfNeeded windows' w' = Some (w', Returned tt).
Proof.
  intros Hlock Hlevel. unfold refreshFromStorageIfNeeded at 1.
  rewrite Hlock, Hlevel. simpl. intros Hloop.
  destruct (caller_state_refreshLoop windows w w' _ Hloop) as [Hl Hr].
  pose proof (refreshLoop_valid windows w w' Hloop) as Hvalid.
  unfold refreshFromStorageIfNeeded. rewrite Hl, Hr, Hlock, Hlevel. simpl.
  destruct windows'; simpl; rewrite Hvalid; reflexivity.
Qed.

(** X14. An undisturbed refresh of an invalid cache whose lookup returns
    makes the cache agree with what the lookup gave.  With a row, the
    active number is the row's transaction number, [getLastWriteOpTimeTs]
    of that number returns the row's write position, and a smaller number
    is rejected as too old.  With no row, the cache is valid with no
    record and the active number it had.  When the lookup throws, the
    refresh ends by that exception and the cache is still invalid. *)
Theorem refresh_loads_the_row (w : World) :
  isLocked w = false ->
  readConcernLevel w = kLocalReadConcern ->
  _isValid (session w) = false ->
  (forall row,
      lookupTxnRecord (storage w) (_sessionId (session w)) = Returned row ->
      exists w',
        refreshFromStorageIfNeeded [quiet] w = Some (w', Returned tt) /\
        storage w' = storage w /\
        _isValid (session w') = true /\
        _lastWrittenSessionRecord (session w') = row /\
        match row with
        | Some r =>
            _activeTxnNumber (session w') = SessionTxnRecord.getTxnNum r /\
            getLastWriteOpTimeTs (SessionTxnRecord.getTxnNum r) (session w')
            = (session w', Returned (SessionTxnRecord.getLastWriteOpTimeTs r)) /\
            (forall n, n < SessionTxnRecord.getTxnNum r ->
                       _beginTxn n (session w') = (session w', Thrown TransactionTooOld))
        | None =>
            _activeTxnNumber (session w') = _activeTxnNumber (session w) /\
            getLastWriteOpTimeTs (_activeTxnNumber (session w)) (session w')
            = (session w', Returned Timestamp_null)
        end) /\
  (forall c,
      lookupTxnRecord (storage w) (_sessionId (session w)) = Thrown c ->
      refreshFromStorageIfNeeded [quiet] w = Some (w, Thrown c)).
Proof.
  intros Hlock Hlevel Hinvalid. split.
  - intros row Hlook.
    rewrite (refreshFromStorageIfNeeded_quiet w row Hlock Hlevel Hinvalid Hlook).
    eexists. split; [reflexivity | ].
    destruct w as [s db locked u level cs ended fp]. simpl in *.
    split; [reflexivity | split; [reflexivity | split; [reflexivity | ]]].
    destruct row as [r | ]; simpl.
    + split; [reflexivity | split].
      * run_cache. rewrite !Z.eqb_refl. reflexivity.
      * intros n Hlt. run_cache.
        destruct (n >=? SessionTxnRecord.getTxnNum r) eqn:Hge; bool_to_prop;
          [lia | reflexivity].
    + split; [reflexivity | ].
      run_cache. rewrite Z.eqb_refl. reflexivity.
  - intros c Hlook. unfold refreshFromStorageIfNeeded.
    rewrite Hlock, Hlevel. simpl. rewrite Hinvalid.
    rewrite (refreshIteration_thrown quiet w c) by exact Hlook. reflexivity.
Qed.

End RefreshFurther.

Lemma refreshFromStorageIfNeeded_returns_witness :
  exists w',
    refreshFromStorageIfNeeded ([invalidated_once] ++ [quiet]) world_unrefreshed
    = Some (w', Returned tt) /\
    _isValid (session w') = true.
Proof.
  apply (proj2 (@refreshFromStorageIfNeeded_returns InMemory.collaborators
                  [invalidated_once] world_unrefreshed eq_refl eq_refl)).
  intros db sessionId. unfold lookupTxnRecord. simpl.
  destruct (InMemory.lookup db sessionId); eexists; reflexivity.
Defined.

Lemma refreshFromStorageIfNeeded_idempotent_witness :
  refreshFromStorageIfNeeded [invalidated_once] world_refreshed
  = Some (world_refreshed, Returned tt).
Proof.
  apply (@refreshFromStorageIfNeeded_idempotent InMemory.collaborators
           [quiet] [invalidated_once] world_unrefreshed world_refreshed);
    reflexivity.
Defined.

Lemma refresh_loads_the_row_witness :
  (exists w',
      refreshFromStorageIfNeeded [quiet] world_unrefreshed = Some (w', Returned tt) /\
      storage w' = store_3_50 /\
      _isValid (session w') = true /\
      _lastWrittenSessionRecord (session w') = Some record_3_50 /\
      _activeTxnNumber (session w') = 3 /\
      getLastWriteOpTimeTs 3 (session w') = (session w', Returned 50%N) /\
      (forall n, n < 3 ->
                 _beginTxn n (session w') = (session w', Thrown TransactionTooOld))) /\
  refreshFromStorageIfNeeded [quiet] world_corrupt
  = Some (world_corrupt, Thrown (ErrorCodes_fromInt 40414)).
Proof.
  split.
  - exact (proj1 (@refresh_loads_the_row InMemory.collaborators world_unrefreshed
                    eq_refl eq_refl eq_refl)
                 (Some record_3_50) eq_refl).
  - exact (proj2 (@refresh_loads_the_row InMemory.corrupt world_corrupt
                    eq_refl eq_refl eq_refl)
                 (ErrorCodes_fromInt 40414) eq_refl).
Defined.

(** ** Secondary apply *)

Section SecondaryApply.
Context `{Collaborators}.

Lemma updateSessionRecordOnSecondary_attempt_keeps (rec : SessionTxnRecord.t)
    (w : World) :
  changes w = [] ->
  session (fst (updateSessionRecordOnSecondary_attempt rec w)) = session w /\
  (snd (updateSessionRecordOnSecondary_attempt rec w) <> Aborted ->
   isLocked (fst (updateSessionRecordOnSecondary_attempt rec w)) = false /\
   writeUnitOfWork (fst (updateSessionRecordOnSecondary_attempt rec w)) = None /\
   changes (fst (updateSessionRecordOnSecondary_attempt rec w)) = []).
Proof.
  intros Hchanges.
  unfold updateSessionRecordOnSecondary_attempt, updateSessionEntry, runUpdate,
         WriteUnitOfWork_begin, WriteUnitOfWork_commit, WriteUnitOfWork_abort,
         bind, modify, gets, uassert, throw, ret.
  simpl.
  destruct (getCollection (storage w)); simpl.
  - destruct (update (storage w) _) as [db' [res | c | ]]; simpl.
    + destruct ((numDocsModified res =? 0) && negb (isSome (upserted res))); simpl;
        rewrite ?Hchanges; repeat split; reflexivity.
    + repeat split; reflexivity.
    + split; [reflexivity | intros Hne; contradiction Hne; reflexivity].
  - repeat split; reflexivity.
Qed.

(** X17. Called without a lock and with no commit handler pending,
    [updateSessionRecordOnSecondary] never changes the cache, however
    often it retries and whatever its outcome; unless the process is
    terminated it leaves the lock released, the unit of work closed and no
    handler registered. *)
Theorem updateSessionRecordOnSecondary_keeps_cache (attempts : nat)
    (rec : SessionTxnRecord.t) (w : World) :
  isLocked w = false ->
  changes w = [] ->
  session (fst (updateSessionRecordOnSecondary attempts rec w)) = session w /\
  (snd (updateSessionRecordOnSecondary attempts rec w) <> Aborted ->
   isLocked (fst (updateSessionRecordOnSecondary attempts rec w)) = false /\
   writeUnitOfWork (fst (updateSessionRecordOnSecondary attempts rec w)) = None /\
   changes (fst (updateSessionRecordOnSecondary attempts rec w)) = []).
Proof.
  intros Hlock Hchanges.
  unfold updateSessionRecordOnSecondary, bind, gets, invariant.
  rewrite Hlock. simpl. clear Hlock.
  revert w Hchanges. induction attempts as [ | k IH]; intros w Hchanges.
  - pose proof (updateSessionRecordOnSecondary_attempt_keeps rec w Hchanges)
      as [Hsession Hrest].
    simpl. destruct (updateSessionRecordOnSecondary_attempt rec w) as [w1 [[] | c | ]];
      simpl in *; try (split; [exact Hsession | exact Hrest]).
    destruct c; simpl; split; try exact Hsession; exact Hrest.
  - pose proof (updateSessionRecordOnSecondary_attempt_keeps rec w Hchanges)
      as [Hsession Hrest].
    simpl. destruct (updateSessionRecordOnSecondary_attempt rec w) as [w1 [[] | c | ]];
      simpl in *; try (split; [exact Hsession | exact Hrest]).
    destruct c; simpl; try (split; [exact Hsession | exact Hrest]).
    destruct (Hrest ltac:(discriminate)) as [_ [_ Hchanges1]].
    destruct (IH w1 Hchanges1) as [IHsession IHrest].
    rewrite IHsession. split; [exact Hsession | exact IHrest].
Qed.

End SecondaryApply.

Lemma updateSessionRecordOnSecondary_keeps_cache_witness :
  let w := InMemory.world cache_at_5 store_empty None in
  session (fst (updateSessionRecordOnSecondary 2 record_5_100 w)) = cache_at_5 /\
  isLocked (fst (updateSessionRecordOnSecondary 2 record_5_100 w)) = false /\
  writeUnitOfWork (fst (updateSessionRecordOnSecondary 2 record_5_100 w)) = None /\
  changes (fst (updateSessionRecordOnSecondary 2 record_5_100 w)) = [].
Proof.
  pose proof (@updateSessionRecordOnSecondary_keeps_cache InMemory.collaborators
                2%nat record_5_100 (InMemory.world cache_at_5 store_empty None)
                eq_refl eq_refl) as [Hsession Hrest].
  split; [exact Hsession | ].
  apply Hrest. discriminate.
Defined.
